(** * Solar optimizer: a shallow embedding of [solar_optimizer.py]

    The classes [TariffSchedule], [SolarSystem], [EnergyOptimizer] and
    [EnergyMonitor] are embedded method by method.  Python floats are
    modelled as exact rationals ([Q], compared with [==]); the wall clock
    ([datetime.now()]) and the random source ([random.uniform(0.8, 1.0)])
    are oracles held in an explicit [World] that every effectful method
    threads through.  Exceptions are values of [result].  The drivers
    [main] and [run_demo] of [demo_solar_optimizer.py] are embedded up to
    what they print and plot.

    Exact rationals serve the statements that rounding cannot affect:
    comparisons, orders, zeros, counts and structure.  The values the
    arithmetic returns are stated over [Rounded], where every float
    operation is followed by a rounding. *)

From Stdlib Require Import ZArith QArith Qminmax Qabs Qround Qpower Lia Lqa.
From stdpp Require Import base option list strings gmap.

Local Open Scope Z_scope.

(** ** Exceptions *)

Inductive exn : Type :=
| ValueError
| KeyError.

Inductive result (A : Type) : Type :=
| Ok (a : A)
| Raise (e : exn).

Arguments Ok {A} a.
Arguments Raise {A} e.

#[global] Instance result_ret : MRet result := fun A a => Ok a.

#[global] Instance result_bind : MBind result := fun A B k r =>
  match r with
  | Ok a => k a
  | Raise e => Raise e
  end.

(** ** Floats as rationals *)

Definition Qlt_bool (a b : Q) : bool := negb (Qle_bool b a).

(** Python's two-argument [min(a, b)]: the first argument unless the second
    is strictly smaller. *)
Definition py_min (a b : Q) : Q := if Qlt_bool b a then b else a.

(** Python's [sum(xs)]: a left fold starting from the integer 0. *)
Definition py_sum (xs : list Q) : Q := fold_left Qplus xs 0%Q.

(** Python's [xs[start:]] for an arbitrary (possibly negative) start. *)
Definition py_slice_from {A : Type} (start : Z) (xs : list A) : list A :=
  let n := Z.of_nat (length xs) in
  let s := if start <? 0 then Z.max (n + start) 0 else Z.min start n in
  drop (Z.to_nat s) xs.

(** ** Insertion-ordered dictionaries with string keys *)

Fixpoint dict_get {V : Type} (k : string) (d : list (string * V)) : option V :=
  match d with
  | [] => None
  | (k', v) :: d' => if String.eqb k k' then Some v else dict_get k d'
  end.

(** [d[k] = v]: overwrite in place when the key exists, append otherwise. *)
Fixpoint dict_set {V : Type} (k : string) (v : V) (d : list (string * V))
  : list (string * V) :=
  match d with
  | [] => [(k, v)]
  | (k', v') :: d' =>
      if String.eqb k k' then (k', v) :: d' else (k', v') :: dict_set k v d'
  end.

(** [d[k]] as an expression: raises [KeyError] on a missing key. *)
Definition dict_index {V : Type} (k : string) (d : list (string * V)) : result V :=
  match dict_get k d with
  | Some v => Ok v
  | None => Raise KeyError
  end.

(** ** [datetime.time] and [datetime.datetime] *)

Record time : Type := mk_time {
  t_hour : Z;
  t_minute : Z;
  t_second : Z;
  t_microsecond : Z
}.

(** [time(h, m)] *)
Definition time_hm (h m : Z) : time := mk_time h m 0 0.

(** Naive times compare lexicographically on (hour, minute, second,
    microsecond). *)
Definition time_ltb (a b : time) : bool :=
  if t_hour a <? t_hour b then true
  else if t_hour b <? t_hour a then false
  else if t_minute a <? t_minute b then true
  else if t_minute b <? t_minute a then false
  else if t_second a <? t_second b then true
  else if t_second b <? t_second a then false
  else t_microsecond a <? t_microsecond b.

Definition time_leb (a b : time) : bool := negb (time_ltb b a).
Definition time_geb (a b : time) : bool := negb (time_ltb a b).

Record datetime : Type := mk_datetime {
  dt_year : Z;
  dt_month : Z;
  dt_day : Z;
  dt_hour : Z;
  dt_minute : Z;
  dt_second : Z;
  dt_microsecond : Z
}.

(** [dt.time()] *)
Definition dt_time (dt : datetime) : time :=
  mk_time (dt_hour dt) (dt_minute dt) (dt_second dt) (dt_microsecond dt).

(** [dt.replace(hour=h)]: [ValueError] unless [0 <= h <= 23]. *)
Definition dt_replace_hour (dt : datetime) (h : Z) : result datetime :=
  if (0 <=? h) && (h <=? 23) then
    Ok (mk_datetime (dt_year dt) (dt_month dt) (dt_day dt) h
          (dt_minute dt) (dt_second dt) (dt_microsecond dt))
  else Raise ValueError.

(** ** The world: wall clock and random source

    [wall_clock k] is what the [k]-th call of [datetime.now()] returns and
    [uniform_stream k] what the [k]-th call of [random.uniform(0.8, 1.0)]
    returns; the two counters record how many calls have been made. *)

Record World : Type := mk_World {
  wall_clock : nat -> datetime;
  now_calls : nat;
  uniform_stream : nat -> Q;
  uniform_calls : nat
}.

Definition datetime_now (w : World) : datetime * World :=
  (wall_clock w (now_calls w),
   mk_World (wall_clock w) (S (now_calls w)) (uniform_stream w) (uniform_calls w)).

Definition random_uniform (w : World) : Q * World :=
  (uniform_stream w (uniform_calls w),
   mk_World (wall_clock w) (now_calls w) (uniform_stream w) (S (uniform_calls w))).

(** ** [TariffSchedule] *)

Record PeriodDetails : Type := mk_period {
  start : time;
  end_ : time;
  rate : Q
}.

Record TariffSchedule : Type := mk_TariffSchedule {
  periods : list (string * PeriodDetails)
}.

Definition TariffSchedule_init : TariffSchedule :=
  mk_TariffSchedule
    [ ("peak"%string, mk_period (time_hm 14 0) (time_hm 20 0) (40 # 100));
      ("shoulder"%string, mk_period (time_hm 7 0) (time_hm 14 0) (25 # 100));
      ("off_peak"%string, mk_period (time_hm 20 0) (time_hm 7 0) (15 # 100)) ].

(** The test of one period in the loop of [get_current_rate]. *)
Definition period_matches (current_time : time) (details : PeriodDetails) : bool :=
  if time_ltb (end_ details) (start details) then
    time_geb current_time (start details) || time_ltb current_time (end_ details)
  else
    time_leb (start details) current_time && time_ltb current_time (end_ details).

(** The [for period, details in self.periods.items()] loop: the rate of
    the first matching period, if any. *)
Fixpoint first_matching_rate (current_time : time)
    (items : list (string * PeriodDetails)) : option Q :=
  match items with
  | [] => None
  | (_, details) :: items' =>
      if period_matches current_time details then Some (rate details)
      else first_matching_rate current_time items'
  end.

(** The body of [get_current_rate] once the clock has been read. *)
Definition rate_at (self : TariffSchedule) (current_time : time) : result Q :=
  match first_matching_rate current_time (periods self) with
  | Some r => Ok r
  | None =>
      details ← dict_index "off_peak" (periods self);
      mret (rate details)
  end.

Definition get_current_rate (self : TariffSchedule) (w : World) : result (Q * World) :=
  let '(now, w1) := datetime_now w in
  let current_time := dt_time now in
  r ← rate_at self current_time;
  mret (r, w1).

(** ** [SolarSystem] *)

Record SolarSystem : Type := mk_SolarSystem {
  capacity_kw : Q;
  current_generation : Q;
  stored_energy : Q;
  max_storage : Q
}.

Definition SolarSystem_init (capacity : Q) : SolarSystem :=
  mk_SolarSystem capacity 0 0 (capacity * 4).

(** The deterministic factor [1 - abs(hour - 12) / 6] of the daylight
    branch. *)
Definition daylight_factor (hour : Z) : Q :=
  (1 - inject_Z (Z.abs (hour - 12)) / 6)%Q.

Definition is_daylight (hour : Z) : bool := (6 <=? hour) && (hour <=? 18).

Definition update_generation (self : SolarSystem) (time_of_day : datetime)
    (w : World) : Q * SolarSystem * World :=
  let hour := dt_hour time_of_day in
  let '(g, w1) :=
    if is_daylight hour then
      let '(u, w1) := random_uniform w in
      ((capacity_kw self * daylight_factor hour * u)%Q, w1)
    else (0%Q, w) in
  (g, mk_SolarSystem (capacity_kw self) g (stored_energy self) (max_storage self), w1).

(** [store_energy] and [use_stored_energy] return and leave values of float
    arithmetic; they are embedded with it, in [Rounded] below. *)

(** ** [EnergyOptimizer] *)

Record ApplianceDetails : Type := mk_appliance {
  power_usage : Q;
  flexible_timing : bool;
  scheduled_runs : list Z
}.

(** The optimizer holds its solar system and tariff schedule by value: no
    method below reaches them through another reference. *)
Record EnergyOptimizer : Type := mk_EnergyOptimizer {
  solar_system : SolarSystem;
  tariff_schedule : TariffSchedule;
  appliance_schedule : list (string * ApplianceDetails)
}.

Definition EnergyOptimizer_init (s : SolarSystem) (t : TariffSchedule)
  : EnergyOptimizer :=
  mk_EnergyOptimizer s t [].

Definition add_appliance (self : EnergyOptimizer) (name : string)
    (power : Q) (flexible : bool) : EnergyOptimizer :=
  mk_EnergyOptimizer (solar_system self) (tariff_schedule self)
    (dict_set name (mk_appliance power flexible []) (appliance_schedule self)).

(** [range(n)] *)
Definition py_range (n : Z) : list Z := map Z.of_nat (seq 0 (Z.to_nat n)).

(** A [for] loop whose body may raise. *)
Fixpoint for_each {A S : Type} (body : S -> A -> result S) (xs : list A) (s : S)
  : result S :=
  match xs with
  | [] => mret s
  | x :: xs' => s' ← body s x; for_each body xs' s'
  end.

(** The condition of the inner [if]; Python's [or] evaluates the lookup of
    the off-peak rate only when the first comparison is false. *)
Definition should_run (ts : TariffSchedule) (solar_generation r : Q)
    (details : ApplianceDetails) : result bool :=
  if Qlt_bool (power_usage details) solar_generation then mret true
  else
    off ← dict_index "off_peak" (periods ts);
    mret (Qeq_bool r (rate off)).

(** The body of [for appliance, details in self.appliance_schedule.items()]. *)
Definition consider_appliance (ts : TariffSchedule) (hour : Z)
    (solar_generation r : Q) (schedule : gmap Z (list string))
    (item : string * ApplianceDetails) : result (gmap Z (list string)) :=
  let '(appliance, details) := item in
  if flexible_timing details then
    go ← should_run ts solar_generation r details;
    if (go : bool) then
      let schedule1 :=
        match schedule !! hour with
        | None => <[hour := []]> schedule
        | Some _ => schedule
        end in
      match schedule1 !! hour with
      | Some l => mret (<[hour := l ++ [appliance]]> schedule1)
      | None => Raise KeyError
      end
    else mret schedule
  else mret schedule.

(** What the outer loop carries from one hour to the next. *)
Record LoopState : Type := mk_LoopState {
  ls_world : World;
  ls_solar : SolarSystem;
  ls_schedule : gmap Z (list string)
}.

(** The body of [for hour in range(forecast_window_hours)]. *)
Definition optimize_hour (ts : TariffSchedule)
    (appliances : list (string * ApplianceDetails)) (current_time : datetime)
    (st : LoopState) (hour : Z) : result LoopState :=
  time_slot ← dt_replace_hour current_time hour;
  '(r, w1) ← get_current_rate ts (ls_world st);
  let '(solar_generation, solar1, w2) :=
    update_generation (ls_solar st) time_slot w1 in
  schedule1 ← for_each (consider_appliance ts hour solar_generation r)
                 appliances (ls_schedule st);
  mret (mk_LoopState w2 solar1 schedule1).

Definition optimize_schedule (self : EnergyOptimizer)
    (forecast_window_hours : Z) (w : World)
  : result (gmap Z (list string) * EnergyOptimizer * World) :=
  let schedule := (∅ : gmap Z (list string)) in
  let '(current_time, w0) := datetime_now w in
  st ← for_each
         (optimize_hour (tariff_schedule self) (appliance_schedule self) current_time)
         (py_range forecast_window_hours)
         (mk_LoopState w0 (solar_system self) schedule);
  mret (ls_schedule st,
        mk_EnergyOptimizer (ls_solar st) (tariff_schedule self) (appliance_schedule self),
        ls_world st).

(** ** [EnergyMonitor] *)

Record UsageRecord : Type := mk_usage {
  usage_timestamp : datetime;
  usage : Q
}.

Record CostRecord : Type := mk_cost {
  cost_timestamp : datetime;
  cost : Q
}.

Record EnergyMonitor : Type := mk_EnergyMonitor {
  usage_history : list UsageRecord;
  cost_history : list CostRecord
}.

Definition EnergyMonitor_init : EnergyMonitor := mk_EnergyMonitor [] [].

Definition record_usage (self : EnergyMonitor) (timestamp : datetime)
    (u c : Q) : EnergyMonitor :=
  mk_EnergyMonitor (usage_history self ++ [mk_usage timestamp u])
                   (cost_history self ++ [mk_cost timestamp c]).

Record Summary : Type := mk_Summary {
  total_usage : Q;
  total_cost : Q;
  average_rate : Q
}.

Definition get_daily_summary (self : EnergyMonitor) : Summary :=
  match usage_history self with
  | [] => mk_Summary 0 0 0
  | _ :: _ =>
      let daily_usage := py_sum (map usage (py_slice_from (-24) (usage_history self))) in
      let daily_cost := py_sum (map cost (py_slice_from (-24) (cost_history self))) in
      mk_Summary daily_usage daily_cost
        (if Qlt_bool 0 daily_usage then (daily_cost / daily_usage)%Q else 0%Q)
  end.

(** ** The drivers: [main] and [run_demo]

    Both replay the schedule hour by hour.  Printing and plotting are left
    out: [main] is modelled by the summary it prints, [run_demo] by the
    table of hourly records it builds, the monitor and the schedule. *)

(** Python's two-argument [max(a, b)]: the first argument unless the second
    is strictly greater. *)
Definition py_max (a b : Q) : Q := if Qlt_bool a b then b else a.

(** [sum(optimizer.appliance_schedule[app]['power_usage'] for app in
    scheduled_appliances)]: the generator is consumed from left to right and
    a missing name raises [KeyError]. *)
Definition scheduled_power (registry : list (string * ApplianceDetails))
    (scheduled_appliances : list string) : result Q :=
  for_each (fun acc app =>
              details ← dict_index app registry;
              mret (acc + power_usage details)%Q)
    scheduled_appliances 0%Q.

(** What the replay loops carry from one hour to the next.  The variable
    [solar_system] of the drivers is the object the optimizer holds; the
    loops reach it through that variable only. *)
Record SimState : Type := mk_SimState {
  sim_world : World;
  sim_solar : SolarSystem;
  sim_monitor : EnergyMonitor
}.

(** The body of [for hour in range(24)] in [main]. *)
Definition main_hour (ts : TariffSchedule)
    (registry : list (string * ApplianceDetails))
    (schedule : gmap Z (list string)) (current_time : datetime)
    (st : SimState) (hour : Z) : result SimState :=
  time_slot ← dt_replace_hour current_time hour;
  let '(generation, solar1, w1) :=
    update_generation (sim_solar st) time_slot (sim_world st) in
  '(r, w2) ← get_current_rate ts w1;
  let scheduled_appliances := default [] (schedule !! hour) in
  total ← scheduled_power registry scheduled_appliances;
  let grid_usage := py_max 0 (total - generation) in
  let c := (grid_usage * r)%Q in
  mret (mk_SimState w2 solar1 (record_usage (sim_monitor st) time_slot total c)).

(** [main], returning the summary it prints. *)
Definition main (w : World) : result (Summary * World) :=
  let solar := SolarSystem_init 10 in
  let tariff := TariffSchedule_init in
  let optimizer := EnergyOptimizer_init solar tariff in
  let monitor := EnergyMonitor_init in
  let optimizer := add_appliance optimizer "Washing Machine" (12 # 10) true in
  let optimizer := add_appliance optimizer "Dishwasher" (15 # 10) true in
  let optimizer := add_appliance optimizer "Pool Pump" 1 true in
  let optimizer := add_appliance optimizer "Refrigerator" (15 # 100) false in
  '(schedule, optimizer1, w1) ← optimize_schedule optimizer 24 w;
  let '(current_time, w2) := datetime_now w1 in
  st ← for_each
         (main_hour tariff (appliance_schedule optimizer1) schedule current_time)
         (py_range 24)
         (mk_SimState w2 (solar_system optimizer1) monitor);
  let summary := get_daily_summary (sim_monitor st) in
  mret (summary, sim_world st).

(** One row of [hourly_data] in [run_demo]. *)
Record HourlyData : Type := mk_HourlyData {
  hd_hour : Z;
  hd_time : datetime;
  hd_solar_generation : Q;
  hd_total_usage : Q;
  hd_grid_usage : Q;
  hd_solar_used : Q;
  hd_solar_excess : Q;
  hd_rate : Q;
  hd_cost : Q;
  hd_scheduled_appliances : list string
}.

(** [dt.replace(minute=0, second=0, microsecond=0)] *)
Definition dt_truncate_to_hour (dt : datetime) : datetime :=
  mk_datetime (dt_year dt) (dt_month dt) (dt_day dt) (dt_hour dt) 0 0 0.

(** The body of [for hour in range(24)] in [run_demo]. *)
Definition demo_hour (ts : TariffSchedule)
    (registry : list (string * ApplianceDetails))
    (schedule : gmap Z (list string)) (current_time : datetime)
    (acc : SimState * list HourlyData) (hour : Z)
  : result (SimState * list HourlyData) :=
  let '(st, hourly_data) := acc in
  time_slot ← dt_replace_hour current_time hour;
  let '(generation, solar1, w1) :=
    update_generation (sim_solar st) time_slot (sim_world st) in
  '(r, w2) ← get_current_rate ts w1;
  let scheduled_appliances := default [] (schedule !! hour) in
  total ← scheduled_power registry scheduled_appliances;
  let grid_usage := py_max 0 (total - generation) in
  let solar_used := py_min total generation in
  let solar_excess := py_max 0 (generation - total) in
  let c := (grid_usage * r)%Q in
  mret (mk_SimState w2 solar1 (record_usage (sim_monitor st) time_slot total c),
        hourly_data ++ [mk_HourlyData hour time_slot generation total grid_usage
                          solar_used solar_excess r c scheduled_appliances]).

(** The appliances of the demo, in the order of the dictionary literal. *)
Definition demo_appliances : list (string * Q) :=
  [ ("Washing Machine"%string, 12 # 10); ("Dishwasher"%string, 15 # 10);
    ("Pool Pump"%string, 1); ("EV Charger"%string, 7);
    ("Air Conditioner"%string, 25 # 10); ("Refrigerator"%string, 15 # 100);
    ("Water Heater"%string, 4) ]%Q.

(** What [run_demo] computes before it prints and plots. *)
Record DemoData : Type := mk_DemoData {
  demo_schedule : gmap Z (list string);
  demo_hourly_data : list HourlyData;
  demo_monitor : EnergyMonitor
}.

Definition run_demo (w : World) : result (DemoData * World) :=
  let solar_capacity := 10%Q in
  let solar := SolarSystem_init solar_capacity in
  let tariff := TariffSchedule_init in
  let optimizer := EnergyOptimizer_init solar tariff in
  let monitor := EnergyMonitor_init in
  let optimizer :=
    fold_left (fun o item =>
                 let '(name, power) := item in
                 let flexible := negb (String.eqb name "Refrigerator") in
                 add_appliance o name power flexible)
      demo_appliances optimizer in
  '(schedule, optimizer1, w1) ← optimize_schedule optimizer 24 w;
  let '(now, w2) := datetime_now w1 in
  let current_time := dt_truncate_to_hour now in
  '(st, hourly_data) ←
    for_each
      (demo_hour tariff (appliance_schedule optimizer1) schedule current_time)
      (py_range 24)
      (mk_SimState w2 (solar_system optimizer1) monitor, []);
  mret (mk_DemoData schedule hourly_data (sim_monitor st), sim_world st).

(** ** Floating-point arithmetic

    A Python float is a binary64 number and every arithmetic operation on
    floats returns the rounding of the exact result.  Where a statement
    depends on that rounding the methods are modelled again in [Rounded],
    over the rationals with an explicit rounding operator [rnd] applied
    after each operation; [Rounding] collects what is used of it, all of
    which holds of round-to-nearest, and [round64] is round-to-nearest-even
    to 53 significant bits, for computing with binary64 values. *)

Class Rounding (rnd : Q -> Q) : Prop := {
  rnd_proper : forall x y : Q, (x == y)%Q -> (rnd x == rnd y)%Q;
  rnd_monotone : forall x y : Q, (x <= y)%Q -> (rnd x <= rnd y)%Q;
  rnd_idempotent : forall x : Q, (rnd (rnd x) == rnd x)%Q;
  rnd_opp : forall x : Q, (rnd (- x) == - rnd x)%Q;
  rnd_0 : (rnd 0 == 0)%Q;
  rnd_1 : (rnd 1 == 1)%Q
}.

(** The nearest integer, ties to the even one. *)
Definition round_half_even (x : Q) : Z :=
  let f := Qfloor x in
  match (x - inject_Z f ?= 1 # 2)%Q with
  | Lt => f
  | Gt => f + 1
  | Eq => if Z.even f then f else f + 1
  end.

Definition two_power (e : Z) : Q := (2 ^ e)%Q.

(** The exponent [e] with [2^e <= x < 2^(e+1)], for a positive [x]. *)
Definition binade (x : Q) : Z :=
  let e0 := Z.log2 (Qnum x) - Z.log2 (Zpos (Qden x)) in
  if Qle_bool (two_power e0) x then e0 else e0 - 1.

(** A positive [x] rounded to [p] significant bits. *)
Definition round_positive (p : Z) (x : Q) : Q :=
  let s := two_power (p - 1 - binade x) in
  (inject_Z (round_half_even (x * s)) / s)%Q.

Definition round_to_precision (p : Z) (x : Q) : Q :=
  match Qnum x with
  | 0 => 0%Q
  | Zpos _ => round_positive p x
  | Zneg _ => (- round_positive p (- x))%Q
  end.

(** Rounding to binary64, exponent range aside. *)
Definition round64 : Q -> Q := round_to_precision 53.

Module Rounded.

Section Arithmetic.

Variable rnd : Q -> Q.

(** Python's [sum] over floats, whose summation algorithm differs between
    interpreter versions. *)
Variable float_sum : list Q -> Q.

Definition fadd (x y : Q) : Q := rnd (x + y).
Definition fsub (x y : Q) : Q := rnd (x - y).
Definition fmul (x y : Q) : Q := rnd (x * y).
Definition fdiv (x y : Q) : Q := rnd (x / y).

Definition SolarSystem_init (capacity : Q) : SolarSystem :=
  mk_SolarSystem capacity 0 0 (fmul capacity 4).

Definition update_generation (self : SolarSystem) (time_of_day : datetime)
    (w : World) : Q * SolarSystem * World :=
  let hour := dt_hour time_of_day in
  let '(g, w1) :=
    if is_daylight hour then
      let '(u, w1) := random_uniform w in
      (fmul (fmul (capacity_kw self)
               (fsub 1 (fdiv (inject_Z (Z.abs (hour - 12))) 6))) u, w1)
    else (0%Q, w) in
  (g, mk_SolarSystem (capacity_kw self) g (stored_energy self) (max_storage self), w1).

Definition store_energy (self : SolarSystem) (amount : Q) : Q * SolarSystem :=
  let available_storage := fsub (max_storage self) (stored_energy self) in
  let amount_to_store := py_min amount available_storage in
  (amount_to_store,
   mk_SolarSystem (capacity_kw self) (current_generation self)
     (fadd (stored_energy self) amount_to_store) (max_storage self)).

Definition use_stored_energy (self : SolarSystem) (amount : Q) : Q * SolarSystem :=
  let amount_to_use := py_min amount (stored_energy self) in
  (amount_to_use,
   mk_SolarSystem (capacity_kw self) (current_generation self)
     (fsub (stored_energy self) amount_to_use) (max_storage self)).

Definition get_daily_summary (self : EnergyMonitor) : Summary :=
  match usage_history self with
  | [] => mk_Summary 0 0 0
  | _ :: _ =>
      let daily_usage := float_sum (map usage (py_slice_from (-24) (usage_history self))) in
      let daily_cost := float_sum (map cost (py_slice_from (-24) (cost_history self))) in
      mk_Summary daily_usage daily_cost
        (if Qlt_bool 0 daily_usage then fdiv daily_cost daily_usage else 0%Q)
  end.

End Arithmetic.

End Rounded.

(** The left-to-right sum with every addition rounded: what [sum] computes
    over floats in interpreters without compensated summation. *)
Definition rounded_sum (rnd : Q -> Q) (xs : list Q) : Q :=
  fold_left (Rounded.fadd rnd) xs 0%Q.

(** * Vocabulary of the properties

    Definitions the statements below are phrased with: the storage
    invariant and call sequences, sums and windows of a log, and the
    per-hour view of the scheduling loop. *)

(** The storage invariant of the data model. *)
Definition storage_ok (s : SolarSystem) : Prop :=
  (0 <= stored_energy s <= max_storage s)%Q.



(** The mathematical sum of a list of rationals. *)
Definition Qsum (xs : list Q) : Q := foldr Qplus 0%Q xs.

(** The entries a window of [n] most recent entries consists of: the last
    [n] of the log, or the whole log while it is shorter. *)
Definition most_recent {A : Type} (n : nat) (log recent : list A) : Prop :=
  exists older, log = older ++ recent /\
    (length recent = n \/ (older = [] /\ (length recent <= n)%nat)).

(** How many draws of the random source the hours before [h] consume. *)
Definition draws_before (h : Z) : nat :=
  length (List.filter is_daylight (py_range h)).

(** [schedule[hour]] extended by [names], the key being created on the
    first append only. *)
Definition append_entries (hour : Z) (names : list string)
    (schedule : gmap Z (list string)) : gmap Z (list string) :=
  match names with
  | [] => schedule
  | _ :: _ => <[hour := default [] (schedule !! hour) ++ names]> schedule
  end.

(** The rate [get_current_rate] returns when the clock reads [t]. *)
Definition rate_of (ts : TariffSchedule) (off : PeriodDetails) (t : time) : Q :=
  default (rate off) (first_matching_rate t (periods ts)).

(** The decision taken for one appliance. *)
Definition selected (off : PeriodDetails) (g r : Q)
    (item : string * ApplianceDetails) : bool :=
  flexible_timing (snd item)
  && (Qlt_bool (power_usage (snd item)) g || Qeq_bool r (rate off)).

(** The value [update_generation] computes, as a function of the capacity,
    the hour and the next draw of the random source. *)
Definition gen_value (c : Q) (hour : Z) (w : World) : Q :=
  if is_daylight hour then
    (c * daylight_factor hour * uniform_stream w (uniform_calls w))%Q
  else 0%Q.

(** The world in which the iteration for hour [n] starts, [w0] being the
    world in which the loop starts. *)
Definition loop_world (w0 : World) (n : nat) : World :=
  mk_World (wall_clock w0) (now_calls w0 + n) (uniform_stream w0)
    (uniform_calls w0 + draws_before (Z.of_nat n)).

(** The names appended to the list of hour [h]. *)
Definition names_at (ts : TariffSchedule) (off : PeriodDetails)
    (appliances : list (string * ApplianceDetails)) (c : Q)
    (w0 : World) (h : Z) : list string :=
  let w := loop_world w0 (Z.to_nat h) in
  let r := rate_of ts off (dt_time (wall_clock w (now_calls w))) in
  map fst (List.filter (selected off (gen_value c h w) r) appliances).

(** The value of [schedule.get(h)] once hour [h] has been processed: the
    key exists only if some name was appended. *)
Definition entry_at (ts : TariffSchedule) (off : PeriodDetails)
    (appliances : list (string * ApplianceDetails)) (c : Q)
    (w0 : World) (h : Z) : option (list string) :=
  match names_at ts off appliances c w0 h with
  | [] => None
  | name :: names => Some (name :: names)
  end.

(** The world in which the iteration for hour [h] starts when
    [optimize_schedule] is called in world [w]: the clock has been read
    once before the loop and once in each earlier iteration, and the random
    source once in each earlier daylight hour. *)
Definition world_at (w : World) (h : Z) : World :=
  loop_world (snd (datetime_now w)) (Z.to_nat h).

(** The ['off_peak'] entry of the default periods. *)
Definition default_off_peak : PeriodDetails :=
  mk_period (time_hm 20 0) (time_hm 7 0) (15 # 100).

(** A fixed clock and a fixed multiplier, for the concrete runs below. *)
Definition frozen_world (hour minute : Z) (u : Q) : World :=
  mk_World (fun _ => mk_datetime 2024 3 9 hour minute 0 0) 0 (fun _ => u) 0.

(** One flexible appliance of 1 kW on a 1 kW array with the default
    tariff, as in the scheduler examples of the specification. *)
Definition one_pump : EnergyOptimizer :=
  add_appliance
    (EnergyOptimizer_init (SolarSystem_init 1) TariffSchedule_init)
    "Pool Pump" 1 true.

(** [schedule.get(hour, [])] on the result of a run. *)
Definition scheduled_at
    (run : result (gmap Z (list string) * EnergyOptimizer * World)) (hour : Z)
  : result (list string) :=
  '(sched, _, _) ← run; mret (default [] (sched !! hour)).

(** A time of day as [datetime.time] accepts it. *)
Definition valid_time (t : time) : Prop :=
  0 <= t_hour t <= 23 /\ 0 <= t_minute t <= 59 /\
  0 <= t_second t <= 59 /\ 0 <= t_microsecond t <= 999999.

(** The rate of the default schedule as a function of the hour alone. *)
Definition default_rate_of_hour (h : Z) : Q :=
  if (7 <=? h) && (h <? 14) then 25 # 100
  else if (14 <=? h) && (h <? 20) then 40 # 100
  else 15 # 100.

(** The names of the flexible appliances, in registry order. *)
Definition flexible_names (appliances : list (string * ApplianceDetails))
  : list string :=
  map fst (List.filter (fun item => flexible_timing (snd item)) appliances).

(** The registry of [one_pump] with a second flexible appliance. *)
Definition pump_and_dishwasher : EnergyOptimizer :=
  add_appliance one_pump "Dishwasher" (15 # 10) true.

(** A sequence of [record_usage] calls, one per (timestamp, usage, cost). *)
Definition record_all (m : EnergyMonitor) (entries : list (datetime * Q * Q))
  : EnergyMonitor :=
  fold_left (fun m e => record_usage m (fst (fst e)) (snd (fst e)) (snd e)) entries m.

(** The state of a replay loop after [i] hours, [w0] being the world in
    which the loop starts and [c] the capacity: the clock has been read
    once per hour, the random source once per daylight hour, one record has
    been logged per hour, and, when the random source and the capacity are
    non-negative, each cost lies between 0 and 0.40 times its usage. *)
Definition replay_inv (w0 : World) (c : Q) (i : nat) (st : SimState) : Prop :=
  sim_world st
  = mk_World (wall_clock w0) (now_calls w0 + i) (uniform_stream w0)
      (uniform_calls w0 + draws_before (Z.of_nat i)) /\
  capacity_kw (sim_solar st) = c /\
  length (usage_history (sim_monitor st)) = i /\
  length (cost_history (sim_monitor st)) = i /\
  ((forall k, (0 <= uniform_stream w0 k)%Q) -> (0 <= c)%Q ->
   Forall2 (fun u k => (0 <= usage u)%Q /\ (0 <= cost k <= (40 # 100) * usage u)%Q)
     (usage_history (sim_monitor st)) (cost_history (sim_monitor st))).

(** The registry [main] builds. *)
Definition main_optimizer : EnergyOptimizer :=
  add_appliance
    (add_appliance
       (add_appliance
          (add_appliance
             (EnergyOptimizer_init (SolarSystem_init 10) TariffSchedule_init)
             "Washing Machine" (12 # 10) true)
          "Dishwasher" (15 # 10) true)
       "Pool Pump" 1 true)
    "Refrigerator" (15 # 100) false.

(** The registry [run_demo] builds from its dictionary of appliances. *)
Definition demo_optimizer : EnergyOptimizer :=
  fold_left (fun o item =>
               let '(name, power) := item in
               let flexible := negb (String.eqb name "Refrigerator") in
               add_appliance o name power flexible)
    demo_appliances
    (EnergyOptimizer_init (SolarSystem_init 10) TariffSchedule_init).



(** A value that is a float: rounding leaves it as it is. *)
Definition is_float (rnd : Q -> Q) (x : Q) : Prop := (rnd x == x)%Q.



(** [x] lies in the binade of exponent [e]. *)
Definition in_binade (e : Z) (x : Q) : Prop :=
  (two_power e <= x < two_power (e + 1))%Q.

(** What relates the columns of one row of [hourly_data], whatever the
    rounding of the two subtractions. *)
Definition row_consistent (row : HourlyData) : Prop :=
  (0 <= hd_grid_usage row)%Q /\
  (0 <= hd_solar_excess row)%Q /\
  (hd_grid_usage row == 0 \/ hd_solar_excess row == 0)%Q /\
  (hd_total_usage row <= hd_solar_generation row -> hd_grid_usage row == 0)%Q /\
  (hd_solar_generation row <= hd_total_usage row -> hd_solar_excess row == 0)%Q /\
  (hd_solar_used row <= hd_total_usage row)%Q /\
  (hd_solar_used row <= hd_solar_generation row)%Q /\
  (hd_solar_used row == hd_total_usage row
   \/ hd_solar_used row == hd_solar_generation row)%Q.

(** * Properties *)

(** ** Rationals *)

Lemma Qlt_bool_iff (a b : Q) : Qlt_bool a b = true <-> (a < b)%Q.
Proof.
  unfold Qlt_bool. rewrite negb_true_iff.
  split.
  - intros H. apply Qnot_le_lt. intros Hle.
    apply Qle_bool_iff in Hle. congruence.
  - intros H. destruct (Qle_bool b a) eqn:E; [|reflexivity].
    apply Qle_bool_iff in E. exfalso. apply (Qlt_not_le _ _ H E).
Qed.

Lemma Qlt_bool_false_iff (a b : Q) : Qlt_bool a b = false <-> (b <= a)%Q.
Proof.
  unfold Qlt_bool. rewrite negb_false_iff. apply Qle_bool_iff.
Qed.

Lemma py_min_spec (a b : Q) :
  (py_min a b <= a)%Q /\ (py_min a b <= b)%Q /\ (py_min a b = a \/ py_min a b = b).
Proof.
  unfold py_min. destruct (Qlt_bool b a) eqn:E.
  - apply Qlt_bool_iff in E. repeat split; [lra | lra | now right].
  - apply Qlt_bool_false_iff in E. repeat split; [lra | lra | now left].
Qed.

Lemma py_min_Qmin (a b : Q) : (py_min a b == Qmin a b)%Q.
Proof.
  destruct (py_min_spec a b) as (Ha & Hb & Hc).
  destruct (Q.min_spec a b) as [[Hlt Hm] | [Hle Hm]]; rewrite Hm;
    destruct Hc as [Hc | Hc]; rewrite Hc in *; lra.
Qed.

(** ** Rounded arithmetic *)

Lemma exact_is_rounding : Rounding (fun x => x).
Proof.
  split; intros; try assumption; reflexivity.
Qed.

Lemma rnd_nonneg (rnd : Q -> Q) (x : Q) :
  Rounding rnd -> (0 <= x)%Q -> (0 <= rnd x)%Q.
Proof.
  intros R Hx. rewrite <- (rnd_0 (rnd := rnd)). apply rnd_monotone. exact Hx.
Qed.

Lemma rnd_nonpos (rnd : Q -> Q) (x : Q) :
  Rounding rnd -> (x <= 0)%Q -> (rnd x <= 0)%Q.
Proof.
  intros R Hx. rewrite <- (rnd_0 (rnd := rnd)). apply rnd_monotone. exact Hx.
Qed.

Lemma rnd_le_float (rnd : Q -> Q) (x y : Q) :
  Rounding rnd -> is_float rnd y -> (x <= y)%Q -> (rnd x <= y)%Q.
Proof.
  intros R Hy Hxy. unfold is_float in Hy. rewrite <- Hy.
  apply rnd_monotone. exact Hxy.
Qed.




(** With exact arithmetic the rounded methods are the exact ones. *)
Lemma update_generation_exact (self : SolarSystem) (time_of_day : datetime)
    (w : World) :
  Rounded.update_generation (fun x => x) self time_of_day w
  = update_generation self time_of_day w.
Proof. reflexivity. Qed.

Lemma get_daily_summary_exact (self : EnergyMonitor) :
  Rounded.get_daily_summary (fun x => x) py_sum self = get_daily_summary self.
Proof. reflexivity. Qed.

(** ** Rounding to the nearest integer *)

Lemma round_half_even_proper (x y : Q) :
  (x == y)%Q -> round_half_even x = round_half_even y.
Proof.
  intros E. unfold round_half_even.
  rewrite (Qfloor_comp _ _ E).
  assert (Ec : (x - inject_Z (Qfloor y) ?= 1 # 2)%Q = (y - inject_Z (Qfloor y) ?= 1 # 2)%Q).
  { apply Qcompare_comp; [rewrite E|]; reflexivity. }
  rewrite Ec. reflexivity.
Qed.

Lemma round_half_even_Z (z : Z) : round_half_even (inject_Z z) = z.
Proof.
  unfold round_half_even. rewrite Qfloor_Z.
  assert (E : (inject_Z z - inject_Z z ?= 1 # 2)%Q = Lt).
  { apply (proj1 (Qlt_alt _ _)). set (q := inject_Z z). lra. }
  rewrite E. reflexivity.
Qed.

Lemma round_half_even_bounds (x : Q) :
  Qfloor x <= round_half_even x <= Qfloor x + 1.
Proof.
  unfold round_half_even.
  destruct (x - inject_Z (Qfloor x) ?= 1 # 2)%Q; [destruct (Z.even (Qfloor x))| |]; lia.
Qed.

Lemma round_half_even_monotone (x y : Q) :
  (x <= y)%Q -> round_half_even x <= round_half_even y.
Proof.
  intros Hxy.
  pose proof (Qfloor_resp_le _ _ Hxy) as Hf.
  pose proof (round_half_even_bounds x) as Hx.
  pose proof (round_half_even_bounds y) as Hy.
  destruct (Z.eq_dec (Qfloor x) (Qfloor y)) as [E | Hne]; [|lia].
  unfold round_half_even. rewrite <- E.
  set (f := Qfloor x) in *.
  destruct (Qcompare_spec (x - inject_Z f) (1 # 2)) as [Ex | Lx | Gx];
    destruct (Qcompare_spec (y - inject_Z f) (1 # 2)) as [Ey | Ly | Gy];
    try (destruct (Z.even f)); try lia; exfalso; lra.
Qed.

(** ** Powers of two and binades *)

Lemma two_power_pos (e : Z) : (0 < two_power e)%Q.
Proof. apply Qpower_0_lt. reflexivity. Qed.

Lemma two_power_add (a b : Z) : (two_power (a + b) == two_power a * two_power b)%Q.
Proof. apply Qpower_plus. discriminate. Qed.

Lemma two_power_le (a b : Z) : a <= b -> (two_power a <= two_power b)%Q.
Proof. intros H. apply Qpower_le_compat_l; [exact H | discriminate]. Qed.

Lemma two_power_lt (a b : Z) : a < b -> (two_power a < two_power b)%Q.
Proof. intros H. apply Qpower_lt_compat_l; [exact H | reflexivity]. Qed.

Lemma two_power_Z (e : Z) : 0 <= e -> (two_power e == inject_Z (2 ^ e))%Q.
Proof. intros H. unfold two_power. rewrite Zpower_Qpower by exact H. reflexivity. Qed.

Lemma two_power_succ (e : Z) : (two_power (e + 1) == 2 * two_power e)%Q.
Proof. rewrite two_power_add. change (two_power 1) with 2%Q. ring. Qed.

Lemma in_binade_unique (e e' : Z) (x : Q) :
  in_binade e x -> in_binade e' x -> e = e'.
Proof.
  intros [H1 H2] [H1' H2'].
  destruct (Z_lt_le_dec e e') as [Hlt | Hle1].
  - exfalso. assert (Hp : (two_power (e + 1) <= two_power e')%Q) by (apply two_power_le; lia).
    lra.
  - destruct (Z_lt_le_dec e' e) as [Hlt | Hle2]; [|lia].
    exfalso. assert (Hp : (two_power (e' + 1) <= two_power e)%Q) by (apply two_power_le; lia).
    lra.
Qed.

Lemma in_binade_le (e e' : Z) (x y : Q) :
  in_binade e x -> in_binade e' y -> (x <= y)%Q -> e <= e'.
Proof.
  intros [H1 H2] [H1' H2'] Hxy.
  destruct (Z_lt_le_dec e' e) as [Hlt | Hle]; [|exact Hle].
  exfalso. assert (Hp : (two_power (e' + 1) <= two_power e)%Q) by (apply two_power_le; lia).
  lra.
Qed.

Lemma log2_bounds (n : Z) :
  0 < n -> (two_power (Z.log2 n) <= inject_Z n < two_power (Z.log2 n + 1))%Q.
Proof.
  intros Hn. destruct (Z.log2_spec n Hn) as [Hlo Hhi].
  pose proof (Z.log2_nonneg n) as Hnn.
  rewrite !two_power_Z by lia. split.
  - rewrite <- Zle_Qle. exact Hlo.
  - rewrite <- Zlt_Qlt. replace (Z.log2 n + 1) with (Z.succ (Z.log2 n)) by lia. exact Hhi.
Qed.

Lemma binade_spec (x : Q) : (0 < x)%Q -> in_binade (binade x) x.
Proof.
  intros Hx. destruct x as [n d]. unfold binade. cbn [Qnum Qden].
  assert (Hn : 0 < n) by (unfold Qlt in Hx; cbn in Hx; lia).
  destruct (log2_bounds n Hn) as [Hn1 Hn2].
  destruct (log2_bounds (Zpos d) eq_refl) as [Hd1 Hd2].
  set (ln := Z.log2 n) in *. set (ld := Z.log2 (Z.pos d)) in *.
  assert (Ex : (n # d == inject_Z n / inject_Z (Zpos d))%Q) by apply Qmake_Qdiv.
  assert (Hdpos : (0 < inject_Z (Zpos d))%Q) by reflexivity.
  pose proof (two_power_pos ln) as Pln. pose proof (two_power_pos ld) as Pld.
  assert (Hup : (n # d < two_power (ln - ld + 1))%Q).
  { rewrite Ex. apply Qlt_shift_div_r; [exact Hdpos|].
    replace (ln - ld + 1) with ((ln + 1) + (- ld)) by lia.
    rewrite two_power_add.
    assert (Einv : (two_power (- ld) * two_power ld == 1)%Q).
    { rewrite <- two_power_add. replace (- ld + ld) with 0 by lia. reflexivity. }
    pose proof (two_power_pos (- ld)) as Pnld.
    pose proof (two_power_pos (ln + 1)) as Pln1.
    set (a := two_power (ln + 1)) in *. set (b := two_power (- ld)) in *.
    set (c := two_power ld) in *. set (dd := inject_Z (Z.pos d)) in *.
    set (nn := inject_Z n) in *.
    assert (nn < a * (b * c))%Q by (rewrite Einv; lra).
    assert (a * b * c <= a * b * dd)%Q by (apply Qmult_le_l; [nra | lra]).
    nra. }
  assert (Hlow : (two_power (ln - ld - 1) < n # d)%Q).
  { rewrite Ex. apply Qlt_shift_div_l; [exact Hdpos|].
    replace (ln - ld - 1) with (ln + (- (ld + 1))) by lia.
    rewrite two_power_add.
    assert (Einv : (two_power (- (ld + 1)) * two_power (ld + 1) == 1)%Q).
    { rewrite <- two_power_add. replace (- (ld + 1) + (ld + 1)) with 0 by lia. reflexivity. }
    pose proof (two_power_pos (- (ld + 1))) as Pnld.
    set (a := two_power ln) in *. set (b := two_power (- (ld + 1))) in *.
    set (c := two_power (ld + 1)) in *. set (dd := inject_Z (Z.pos d)) in *.
    set (nn := inject_Z n) in *.
    assert (a * b * dd < a * b * c)%Q by (apply Qmult_lt_l; [nra | lra]).
    assert (a * (b * c) <= nn)%Q by (rewrite Einv; lra).
    nra. }
  unfold in_binade.
  destruct (Qle_bool (two_power (ln - ld)) (n # d)) eqn:E.
  - apply Qle_bool_iff in E. split; assumption.
  - assert (Hlt : (n # d < two_power (ln - ld))%Q).
    { apply Qnot_le_lt. intros H. apply Qle_bool_iff in H. congruence. }
    replace (ln - ld - 1 + 1) with (ln - ld) by lia.
    split; [apply Qlt_le_weak; exact Hlow | exact Hlt].
Qed.

Lemma binade_proper (x y : Q) : (0 < x)%Q -> (x == y)%Q -> binade x = binade y.
Proof.
  intros Hx E. apply (in_binade_unique _ _ x).
  - apply binade_spec. exact Hx.
  - assert (Hy : (0 < y)%Q) by (rewrite <- E; exact Hx).
    destruct (binade_spec y Hy) as [H1 H2]. unfold in_binade. rewrite E. split; assumption.
Qed.

(** ** Rounding to [p] significant bits *)

Section Precision.

Variable p : Z.
Hypothesis p_pos : 1 <= p.

Lemma two_power_inv (e : Z) : (two_power e * two_power (- e) == 1)%Q.
Proof. rewrite <- two_power_add. replace (e + - e) with 0 by lia. reflexivity. Qed.

Lemma div_two_power (x : Q) (e : Z) : (x / two_power e == x * two_power (- e))%Q.
Proof.
  pose proof (two_power_pos e) as P. pose proof (two_power_inv e) as I.
  apply Qmult_inj_r with (two_power e); [lra|].
  rewrite Qmult_comm, Qmult_div_r by lra.
  rewrite <- Qmult_assoc, (Qmult_comm (two_power (- e))), I. ring.
Qed.

(** The scaled value of a number of the binade [e] lies between the
    integers [2^(p-1)] and [2^p]. *)
Lemma scaled_bounds (e : Z) (x : Q) :
  in_binade e x ->
  (inject_Z (2 ^ (p - 1)) <= x * two_power (p - 1 - e) < inject_Z (2 ^ p))%Q.
Proof.
  intros [H1 H2].
  rewrite <- !two_power_Z by lia.
  pose proof (two_power_pos (p - 1 - e)) as Ps.
  assert (E1 : (two_power (p - 1) == two_power e * two_power (p - 1 - e))%Q).
  { rewrite <- two_power_add. replace (e + (p - 1 - e)) with (p - 1) by lia. reflexivity. }
  assert (E2 : (two_power p == two_power (e + 1) * two_power (p - 1 - e))%Q).
  { rewrite <- two_power_add. replace (e + 1 + (p - 1 - e)) with p by lia. reflexivity. }
  rewrite E1, E2. split.
  - apply Qmult_le_compat_r; lra.
  - apply Qmult_lt_compat_r; lra.
Qed.

Lemma rounded_scaled_bounds (e : Z) (x : Q) :
  in_binade e x ->
  2 ^ (p - 1) <= round_half_even (x * two_power (p - 1 - e)) <= 2 ^ p.
Proof.
  intros Hx. destruct (scaled_bounds e x Hx) as [H1 H2]. split.
  - rewrite <- (round_half_even_Z (2 ^ (p - 1))). apply round_half_even_monotone. exact H1.
  - rewrite <- (round_half_even_Z (2 ^ p)). apply round_half_even_monotone. lra.
Qed.

(** [round_positive] at a number whose binade is known. *)
Lemma round_positive_in_binade (e : Z) (x : Q) :
  in_binade e x ->
  (round_positive p x
   == inject_Z (round_half_even (x * two_power (p - 1 - e))) * two_power (e - (p - 1)))%Q.
Proof.
  intros Hx.
  assert (Hpos : (0 < x)%Q) by (destruct Hx as [H _]; pose proof (two_power_pos e); lra).
  assert (Eb : binade x = e) by (apply (in_binade_unique _ _ x); [apply binade_spec|]; assumption).
  unfold round_positive. rewrite Eb. rewrite div_two_power.
  replace (- (p - 1 - e)) with (e - (p - 1)) by lia. reflexivity.
Qed.

Lemma round_positive_bounds (e : Z) (x : Q) :
  in_binade e x ->
  (two_power e <= round_positive p x <= two_power (e + 1))%Q.
Proof.
  intros Hx. rewrite (round_positive_in_binade e x Hx).
  destruct (rounded_scaled_bounds e x Hx) as [H1 H2].
  rewrite Zle_Qle in H1, H2. rewrite <- !two_power_Z in H1, H2 by lia.
  pose proof (two_power_pos (e - (p - 1))) as Ps.
  assert (E1 : (two_power e == two_power (p - 1) * two_power (e - (p - 1)))%Q).
  { rewrite <- two_power_add. replace (p - 1 + (e - (p - 1))) with e by lia. reflexivity. }
  assert (E2 : (two_power (e + 1) == two_power p * two_power (e - (p - 1)))%Q).
  { rewrite <- two_power_add. replace (p + (e - (p - 1))) with (e + 1) by lia. reflexivity. }
  rewrite E1, E2. split; apply Qmult_le_compat_r; lra.
Qed.

Lemma round_positive_pos (x : Q) : (0 < x)%Q -> (0 < round_positive p x)%Q.
Proof.
  intros Hx. destruct (round_positive_bounds _ x (binade_spec x Hx)) as [H _].
  pose proof (two_power_pos (binade x)). lra.
Qed.

Lemma round_positive_proper (x y : Q) :
  (0 < x)%Q -> (x == y)%Q -> (round_positive p x == round_positive p y)%Q.
Proof.
  intros Hx E. unfold round_positive.
  rewrite <- (binade_proper x y Hx E).
  rewrite (round_half_even_proper (x * two_power (p - 1 - binade x))
             (y * two_power (p - 1 - binade x)))
    by (apply Qmult_comp; [exact E | reflexivity]).
  reflexivity.
Qed.

Lemma round_positive_monotone (x y : Q) :
  (0 < x)%Q -> (x <= y)%Q -> (round_positive p x <= round_positive p y)%Q.
Proof.
  intros Hx Hxy. assert (Hy : (0 < y)%Q) by lra.
  pose proof (binade_spec x Hx) as Bx. pose proof (binade_spec y Hy) as By.
  pose proof (in_binade_le _ _ x y Bx By Hxy) as Hle.
  destruct (Z.eq_dec (binade x) (binade y)) as [E | Hne].
  - unfold round_positive. rewrite <- E.
    pose proof (two_power_pos (p - 1 - binade x)) as Ps.
    rewrite !div_two_power.
    pose proof (two_power_pos (- (p - 1 - binade x))) as Pi.
    apply Qmult_le_compat_r; [|lra].
    rewrite <- Zle_Qle. apply round_half_even_monotone.
    apply Qmult_le_compat_r; lra.
  - destruct (round_positive_bounds _ x Bx) as [_ Hx2].
    destruct (round_positive_bounds _ y By) as [Hy1 _].
    assert (Hp : (two_power (binade x + 1) <= two_power (binade y))%Q)
      by (apply two_power_le; lia).
    lra.
Qed.

Lemma round_positive_idempotent (x : Q) :
  (0 < x)%Q -> (round_positive p (round_positive p x) == round_positive p x)%Q.
Proof.
  intros Hx. pose proof (binade_spec x Hx) as Bx.
  set (e := binade x) in *.
  pose proof (round_positive_in_binade e x Bx) as Er.
  destruct (rounded_scaled_bounds e x Bx) as [Hn1 Hn2].
  destruct (round_positive_bounds e x Bx) as [Hr1 Hr2].
  set (n := round_half_even (x * two_power (p - 1 - e))) in *.
  set (r := round_positive p x) in *.
  destruct (Z.eq_dec n (2 ^ p)) as [En | Hne].
  - (* the significand overflowed into the next binade *)
    assert (Er2 : (r == two_power (e + 1))%Q).
    { rewrite Er, En, <- two_power_Z by lia. rewrite <- two_power_add.
      replace (p + (e - (p - 1))) with (e + 1) by lia. reflexivity. }
    assert (Br : in_binade (e + 1) r).
    { unfold in_binade. rewrite Er2. split; [lra|]. apply two_power_lt. lia. }
    rewrite (round_positive_in_binade (e + 1) r Br).
    assert (Es : (r * two_power (p - 1 - (e + 1)) == inject_Z (2 ^ (p - 1)))%Q).
    { rewrite Er2, <- two_power_add, <- two_power_Z by lia.
      replace (e + 1 + (p - 1 - (e + 1))) with (p - 1) by lia. reflexivity. }
    rewrite (round_half_even_proper _ _ Es), round_half_even_Z.
    rewrite Er2, <- two_power_Z by lia. rewrite <- two_power_add.
    replace (p - 1 + (e + 1 - (p - 1))) with (e + 1) by lia. reflexivity.
  - assert (Hlt : n < 2 ^ p) by lia.
    assert (Br : in_binade e r).
    { unfold in_binade. split; [exact Hr1|].
      rewrite Er. rewrite Zlt_Qlt in Hlt. rewrite <- two_power_Z in Hlt by lia.
      pose proof (two_power_pos (e - (p - 1))) as Ps.
      assert (E2 : (two_power (e + 1) == two_power p * two_power (e - (p - 1)))%Q).
      { rewrite <- two_power_add. replace (p + (e - (p - 1))) with (e + 1) by lia.
        reflexivity. }
      rewrite E2. apply Qmult_lt_compat_r; lra. }
    rewrite (round_positive_in_binade e r Br).
    assert (Es : (r * two_power (p - 1 - e) == inject_Z n)%Q).
    { rewrite Er, <- Qmult_assoc, <- two_power_add.
      replace (e - (p - 1) + (p - 1 - e)) with 0 by lia.
      change (two_power 0) with 1%Q. ring. }
    rewrite (round_half_even_proper _ _ Es), round_half_even_Z.
    symmetry. exact Er.
Qed.

Lemma Qnum_pos (x : Q) : (0 < x)%Q <-> 0 < Qnum x.
Proof. unfold Qlt. cbn. lia. Qed.

Lemma Qnum_neg (x : Q) : (x < 0)%Q <-> Qnum x < 0.
Proof. unfold Qlt. cbn. lia. Qed.

Lemma Qnum_zero (x : Q) : (x == 0)%Q <-> Qnum x = 0.
Proof. unfold Qeq. cbn. lia. Qed.

Lemma round_to_precision_pos (x : Q) :
  (0 < x)%Q -> round_to_precision p x = round_positive p x.
Proof.
  intros Hx. apply Qnum_pos in Hx. unfold round_to_precision.
  destruct (Qnum x); [lia | reflexivity | lia].
Qed.

Lemma round_to_precision_neg (x : Q) :
  (x < 0)%Q -> round_to_precision p x = (- round_positive p (- x))%Q.
Proof.
  intros Hx. apply Qnum_neg in Hx. unfold round_to_precision.
  destruct (Qnum x); [lia | lia | reflexivity].
Qed.

Lemma round_to_precision_zero (x : Q) :
  (x == 0)%Q -> round_to_precision p x = 0%Q.
Proof.
  intros Hx. apply Qnum_zero in Hx. unfold round_to_precision. rewrite Hx. reflexivity.
Qed.

Lemma sign_cases (x : Q) : (x < 0)%Q \/ (x == 0)%Q \/ (0 < x)%Q.
Proof.
  destruct (Q_dec x 0) as [[H | H] | H]; [left | right; right | right; left]; assumption.
Qed.

Lemma round_to_precision_sign (x : Q) :
  ((x < 0)%Q -> (round_to_precision p x < 0)%Q) /\
  ((0 < x)%Q -> (0 < round_to_precision p x)%Q).
Proof.
  split; intros Hx.
  - rewrite round_to_precision_neg by exact Hx.
    assert (H : (0 < round_positive p (- x))%Q) by (apply round_positive_pos; lra). lra.
  - rewrite round_to_precision_pos by exact Hx. apply round_positive_pos. exact Hx.
Qed.

Lemma round_to_precision_is_rounding : Rounding (round_to_precision p).
Proof.
  split.
  - (* proper *)
    intros x y E. destruct (sign_cases x) as [Hx | [Hx | Hx]].
    + assert (Hy : (y < 0)%Q) by lra.
      rewrite !round_to_precision_neg by assumption.
      apply Qopp_comp. apply round_positive_proper; [lra | rewrite E; reflexivity].
    + assert (Hy : (y == 0)%Q) by lra.
      rewrite !round_to_precision_zero by assumption. reflexivity.
    + assert (Hy : (0 < y)%Q) by lra.
      rewrite !round_to_precision_pos by assumption.
      apply round_positive_proper; assumption.
  - (* monotone *)
    intros x y Hxy.
    destruct (sign_cases x) as [Hx | [Hx | Hx]];
      destruct (sign_cases y) as [Hy | [Hy | Hy]]; try (exfalso; lra).
    + rewrite !round_to_precision_neg by assumption.
      assert (H : (round_positive p (- y) <= round_positive p (- x))%Q)
        by (apply round_positive_monotone; lra).
      lra.
    + rewrite (round_to_precision_zero y) by assumption.
      apply Qlt_le_weak. apply round_to_precision_sign. exact Hx.
    + apply Qle_trans with 0%Q; apply Qlt_le_weak; apply round_to_precision_sign; assumption.
    + rewrite !round_to_precision_zero by assumption. lra.
    + rewrite (round_to_precision_zero x) by assumption.
      apply Qlt_le_weak. apply round_to_precision_sign. exact Hy.
    + rewrite !round_to_precision_pos by assumption.
      apply round_positive_monotone; assumption.
  - (* idempotent *)
    intros x. destruct (sign_cases x) as [Hx | [Hx | Hx]].
    + rewrite (round_to_precision_neg x) by exact Hx.
      assert (Hr : (0 < round_positive p (- x))%Q) by (apply round_positive_pos; lra).
      rewrite round_to_precision_neg by lra.
      apply Qopp_comp.
      apply Qeq_trans with (round_positive p (round_positive p (- x))).
      * apply round_positive_proper; [lra | ring].
      * apply round_positive_idempotent. lra.
    + rewrite (round_to_precision_zero x) by exact Hx. reflexivity.
    + rewrite (round_to_precision_pos x) by exact Hx.
      rewrite round_to_precision_pos by (apply round_positive_pos; exact Hx).
      apply round_positive_idempotent. exact Hx.
  - (* odd *)
    intros x. destruct (sign_cases x) as [Hx | [Hx | Hx]].
    + rewrite (round_to_precision_neg x) by exact Hx.
      rewrite round_to_precision_pos by lra. ring.
    + rewrite (round_to_precision_zero x) by exact Hx.
      rewrite round_to_precision_zero by lra. reflexivity.
    + rewrite (round_to_precision_pos x) by exact Hx.
      rewrite round_to_precision_neg by lra.
      apply Qopp_comp. apply round_positive_proper; [lra | ring].
  - reflexivity.
  - rewrite round_to_precision_pos by reflexivity.
    assert (B : in_binade 0 1) by (split; [apply Qle_refl | reflexivity]).
    rewrite (round_positive_in_binade 0 1 B).
    assert (Es : (1 * two_power (p - 1 - 0) == inject_Z (2 ^ (p - 1)))%Q).
    { rewrite <- two_power_Z by lia. replace (p - 1 - 0) with (p - 1) by lia. ring. }
    rewrite (round_half_even_proper _ _ Es), round_half_even_Z.
    rewrite <- two_power_Z by lia. rewrite <- two_power_add.
    replace (p - 1 + (0 - (p - 1))) with 0 by lia. reflexivity.
Qed.

End Precision.

Lemma round64_is_rounding : Rounding round64.
Proof. apply round_to_precision_is_rounding. lia. Qed.

(** ** Tariff lookup *)

(** At the four instants below the seconds and microseconds of a valid time
    of day do not change which period of the default schedule matches. *)
Lemma default_rate_ignores_seconds (h m s u : Z) :
  0 <= s -> 0 <= u ->
  (h, m) ∈ [(13, 59); (14, 0); (23, 0); (6, 59)] ->
  rate_at TariffSchedule_init (mk_time h m s u)
  = rate_at TariffSchedule_init (time_hm h m).
Proof.
  intros Hs Hu Hin.
  destruct s as [|s|s]; try lia; destruct u as [|u|u]; try lia;
    repeat (apply elem_of_cons in Hin as [Hin | Hin];
            [inversion Hin; subst; reflexivity |]);
    inversion Hin.
Qed.

(** C5: with the default periods, the first-match lookup gives 0.25 at
    13:59, 0.40 at 14:00, 0.15 at 23:00 and 0.15 at 06:59 (the period that
    wraps midnight), whatever the seconds and microseconds of the clock
    reading are. *)
Theorem default_tariff_boundary_rates (w : World) :
  let now := wall_clock w (now_calls w) in
  let rate_is (r : Q) :=
    get_current_rate TariffSchedule_init w = Ok (r, snd (datetime_now w)) in
  0 <= dt_second now < 60 ->
  0 <= dt_microsecond now < 1000000 ->
  (dt_hour now = 13 -> dt_minute now = 59 -> rate_is (25 # 100)) /\
  (dt_hour now = 14 -> dt_minute now = 0 -> rate_is (40 # 100)) /\
  (dt_hour now = 23 -> dt_minute now = 0 -> rate_is (15 # 100)) /\
  (dt_hour now = 6 -> dt_minute now = 59 -> rate_is (15 # 100)).
Proof.
  intros now rate_is Hs Hu. subst rate_is.
  unfold get_current_rate, datetime_now, dt_time. fold now. cbn [snd].
  repeat split; intros Hh Hm; rewrite Hh, Hm;
    (rewrite default_rate_ignores_seconds; [reflexivity | lia | lia |]);
    repeat constructor.
Qed.

Lemma default_tariff_boundary_rates_witness :
  let w := mk_World (fun _ => mk_datetime 2024 3 9 6 59 59 999999) 0 (fun _ => 1%Q) 0 in
  get_current_rate TariffSchedule_init w = Ok (15 # 100, snd (datetime_now w))%Q.
Proof.
  intros w.
  refine (proj2 (proj2 (proj2 (default_tariff_boundary_rates w _ _))) _ _);
    cbn; first [lia | reflexivity].
Defined.

(** ** Solar generation *)

Lemma daylight_factor_range (hour : Z) :
  6 <= hour <= 18 -> (0 <= daylight_factor hour <= 1)%Q.
Proof.
  intros Hh. unfold daylight_factor.
  assert (Hk : 0 <= Z.abs (hour - 12) <= 6) by lia.
  destruct Hk as [Hk0 Hk6].
  rewrite Zle_Qle in Hk0, Hk6.
  set (k := inject_Z (Z.abs (hour - 12))) in *.
  change (inject_Z 0) with 0%Q in Hk0. change (inject_Z 6) with 6%Q in Hk6.
  assert (Hdiv : (k / 6 == k * (1 # 6))%Q) by (unfold Qdiv; reflexivity).
  rewrite Hdiv. split; lra.
Qed.

Lemma daylight_factor_boundary (hour : Z) :
  hour = 6 \/ hour = 18 -> (daylight_factor hour == 0)%Q.
Proof. intros [-> | ->]; reflexivity. Qed.

Lemma is_daylight_iff (hour : Z) : is_daylight hour = true <-> 6 <= hour <= 18.
Proof. unfold is_daylight. rewrite andb_true_iff, !Z.leb_le. reflexivity. Qed.

(** C10: at the boundary hours 6 and 18, which lie inside the daylight
    range, [update_generation] returns 0 for every capacity and every
    multiplier, because the triangular factor vanishes there. *)
Theorem update_generation_zero_at_boundary (self : SolarSystem)
    (time_of_day : datetime) (w : World) :
  dt_hour time_of_day = 6 \/ dt_hour time_of_day = 18 ->
  is_daylight (dt_hour time_of_day) = true /\
  (fst (fst (update_generation self time_of_day w)) == 0)%Q /\
  (current_generation (snd (fst (update_generation self time_of_day w))) == 0)%Q.
Proof.
  intros Hh.
  assert (Hd : is_daylight (dt_hour time_of_day) = true)
    by (apply is_daylight_iff; lia).
  split; [exact Hd|].
  unfold update_generation. rewrite Hd. cbn.
  rewrite (daylight_factor_boundary _ Hh). split; ring.
Qed.

Lemma update_generation_zero_at_boundary_witness :
  let self := SolarSystem_init (-7 # 2) in
  let w := mk_World (fun _ => mk_datetime 2024 3 9 0 0 0 0) 0 (fun _ => 1%Q) 0 in
  (fst (fst (update_generation self (mk_datetime 2024 3 9 18 45 0 0) w)) == 0)%Q.
Proof.
  intros self w.
  refine (proj1 (proj2 (update_generation_zero_at_boundary self
                          (mk_datetime 2024 3 9 18 45 0 0) w _))).
  right. reflexivity.
Defined.

(** C4: for a positive capacity and a multiplier [U] in [0.8, 1.0],
    [update_generation] returns exactly 0 outside the hours 6..18 and
    inside them the float [capacity_kw * (1 - |hour - 12| / 6) * U], each
    operation rounded, which lies in [0, capacity_kw]. *)
Theorem update_generation_value (rnd : Q -> Q) (self : SolarSystem)
    (time_of_day : datetime) (w : World) (U : Q) :
  let hour := dt_hour time_of_day in
  let g := fst (fst (Rounded.update_generation rnd self time_of_day w)) in
  Rounding rnd ->
  is_float rnd (capacity_kw self) ->
  (0 < capacity_kw self)%Q ->
  uniform_stream w (uniform_calls w) = U ->
  (8 # 10 <= U <= 1)%Q ->
  (~ 6 <= hour <= 18 -> g = 0%Q) /\
  (6 <= hour <= 18 ->
     g = rnd (rnd (capacity_kw self
                   * rnd (1 - rnd (inject_Z (Z.abs (hour - 12)) / 6))) * U)%Q /\
     (0 <= g <= capacity_kw self)%Q).
Proof.
  intros hour g R Hfloat Hcap HU [HU8 HU1]. subst g.
  unfold Rounded.update_generation. fold hour.
  destruct (is_daylight hour) eqn:E.
  - apply is_daylight_iff in E. split; [tauto|]. intros _.
    unfold random_uniform. rewrite HU. cbn [fst].
    unfold Rounded.fmul, Rounded.fsub, Rounded.fdiv.
    split; [reflexivity|].
    assert (Hk : 0 <= Z.abs (hour - 12) <= 6) by lia.
    destruct Hk as [Hk0 Hk6]. rewrite Zle_Qle in Hk0, Hk6.
    set (k := inject_Z (Z.abs (hour - 12))) in *.
    change (inject_Z 0) with 0%Q in Hk0. change (inject_Z 6) with 6%Q in Hk6.
    assert (Hdiv : (k / 6 == k * (1 # 6))%Q) by reflexivity.
    assert (Hq : (0 <= rnd (k / 6) <= 1)%Q).
    { split.
      - apply rnd_nonneg; [exact R | rewrite Hdiv; lra].
      - apply rnd_le_float; [exact R | apply rnd_1 | rewrite Hdiv; lra]. }
    set (q := rnd (k / 6)%Q) in *.
    assert (Hf : (0 <= rnd (1 - q) <= 1)%Q).
    { split.
      - apply rnd_nonneg; [exact R | lra].
      - apply rnd_le_float; [exact R | apply rnd_1 | lra]. }
    set (f := rnd (1 - q)%Q) in *.
    set (c := capacity_kw self) in *.
    assert (Hp : (0 <= rnd (c * f) <= c)%Q).
    { split.
      - apply rnd_nonneg; [exact R | nra].
      - apply rnd_le_float; [exact R | exact Hfloat | nra]. }
    set (p := rnd (c * f)%Q) in *.
    split.
    + apply rnd_nonneg; [exact R | nra].
    + apply rnd_le_float; [exact R | exact Hfloat | nra].
  - split; [reflexivity|]. intros Hd. apply is_daylight_iff in Hd. congruence.
Qed.

Lemma update_generation_value_witness :
  let self := Rounded.SolarSystem_init round64 10 in
  let U := round64 (9 # 10) in
  let w := mk_World (fun _ => mk_datetime 2024 3 9 0 0 0 0) 0 (fun _ => U) 0 in
  let g := fst (fst (Rounded.update_generation round64 self
                       (mk_datetime 2024 3 9 16 0 0 0) w)) in
  (g == 6755399441055745 # 2251799813685248)%Q /\ (0 <= g <= 10)%Q.
Proof.
  intros self U w g. split.
  - vm_compute. reflexivity.
  - refine (proj2 (proj2 (update_generation_value round64 self
                            (mk_datetime 2024 3 9 16 0 0 0) w U
                            round64_is_rounding _ _ _ _) _)).
    + vm_compute. reflexivity.
    + reflexivity.
    + reflexivity.
    + split; vm_compute; discriminate.
    + cbn. lia.
Defined.

(** ** Storage *)

(** C6: [store_energy] returns the minimum of the request and the free
    capacity [max_storage - stored_energy] and adds exactly the returned
    value to [stored_energy]; [use_stored_energy] returns the minimum of the
    request and the charge and subtracts exactly the returned value.  The
    subtraction, the addition and the subtraction are the float operations
    of the source; nothing is assumed about the state, the amount or the
    rounding. *)
Theorem storage_moves_the_minimum (rnd : Q -> Q) (self : SolarSystem) (amount : Q) :
  let '(stored, after_store) := Rounded.store_energy rnd self amount in
  let '(used, after_use) := Rounded.use_stored_energy rnd self amount in
  (stored == Qmin amount (rnd (max_storage self - stored_energy self)))%Q /\
  stored_energy after_store = rnd (stored_energy self + stored)%Q /\
  (used == Qmin amount (stored_energy self))%Q /\
  stored_energy after_use = rnd (stored_energy self - used)%Q /\
  max_storage after_store = max_storage self /\
  max_storage after_use = max_storage self.
Proof.
  unfold Rounded.store_energy, Rounded.use_stored_energy.
  cbv beta iota. cbn [stored_energy max_storage].
  unfold Rounded.fadd, Rounded.fsub.
  split; [apply py_min_Qmin|]. split; [reflexivity|].
  split; [apply py_min_Qmin|]. repeat split.
Qed.











(** ** Usage monitor *)

Lemma fold_left_Qplus (xs : list Q) (a : Q) :
  (fold_left Qplus xs a == a + Qsum xs)%Q.
Proof.
  revert a. induction xs as [|x xs IH]; intros a; cbn [fold_left].
  - unfold Qsum. cbn [foldr]. ring.
  - rewrite IH. unfold Qsum. cbn [foldr]. ring.
Qed.

Lemma py_sum_Qsum (xs : list Q) : (py_sum xs == Qsum xs)%Q.
Proof. unfold py_sum. rewrite fold_left_Qplus. apply Qplus_0_l. Qed.

Lemma py_slice_from_last {A : Type} (n : nat) (log recent : list A) :
  (0 < n)%nat -> most_recent n log recent ->
  py_slice_from (- Z.of_nat n) log = recent.
Proof.
  intros Hn (older & -> & Hlen). unfold py_slice_from.
  rewrite length_app.
  replace (- Z.of_nat n <? 0) with true by (symmetry; apply Z.ltb_lt; lia).
  destruct Hlen as [Hlen | [-> Hlen]].
  - replace (Z.to_nat (Z.max (Z.of_nat (length older + length recent)
                                + - Z.of_nat n) 0))
      with (length older) by lia.
    apply drop_app_length.
  - cbn [length Nat.add app].
    replace (Z.to_nat (Z.max (Z.of_nat (length recent) + - Z.of_nat n) 0))
      with 0%nat by lia.
    reflexivity.
Qed.

(** C7: the summary of an empty log is all zeros; otherwise the totals are
    the sums, as [sum] computes them, over the 24 most recent usage and
    cost entries in insertion order, and the average rate is the float
    quotient of the totals when the total usage is positive and 0
    otherwise; one entry of usage 2 and cost 1 gives an average rate of
    0.5. *)
Theorem daily_summary_spec (rnd : Q -> Q) (float_sum : list Q -> Q)
    (self : EnergyMonitor) :
  let s := Rounded.get_daily_summary rnd float_sum self in
  (usage_history self = [] -> s = mk_Summary 0 0 0) /\
  (usage_history self <> [] ->
     (forall recent, most_recent 24 (usage_history self) recent ->
        total_usage s = float_sum (map usage recent)) /\
     (forall recent, most_recent 24 (cost_history self) recent ->
        total_cost s = float_sum (map cost recent)) /\
     ((0 < total_usage s)%Q ->
        average_rate s = rnd (total_cost s / total_usage s)%Q) /\
     (~ (0 < total_usage s)%Q -> average_rate s = 0%Q)) /\
  ((float_sum [2%Q] == 2)%Q -> (float_sum [1%Q] == 1)%Q ->
   is_float rnd (1 # 2) ->
   Rounding rnd ->
   forall timestamp,
     (average_rate (Rounded.get_daily_summary rnd float_sum
                      (record_usage EnergyMonitor_init timestamp 2 1))
      == 1 # 2)%Q).
Proof.
  intros s. subst s. unfold Rounded.get_daily_summary.
  split; [|split].
  - intros ->. reflexivity.
  - intros Hne. destruct (usage_history self) as [|u us] eqn:E; [congruence|].
    cbn [total_usage total_cost average_rate].
    split; [|split; [|split]].
    + intros recent Hrec.
      rewrite (py_slice_from_last 24 _ recent) by (lia || exact Hrec). reflexivity.
    + intros recent Hrec.
      rewrite (py_slice_from_last 24 _ recent) by (lia || exact Hrec). reflexivity.
    + intros Hpos. apply Qlt_bool_iff in Hpos. rewrite Hpos. reflexivity.
    + intros Hnpos.
      destruct (Qlt_bool 0 (float_sum (map usage (py_slice_from (-24) (u :: us)))))
        eqn:Eb; [|reflexivity].
      apply Qlt_bool_iff in Eb. contradiction.
  - intros H2 H1 Hhalf R timestamp.
    cbn [record_usage EnergyMonitor_init usage_history cost_history app
         average_rate].
    change (py_slice_from (-24) [mk_usage timestamp 2]) with [mk_usage timestamp 2].
    change (py_slice_from (-24) [mk_cost timestamp 1]) with [mk_cost timestamp 1].
    cbn [map usage cost].
    replace (Qlt_bool 0 (float_sum [2%Q])) with true
      by (symmetry; apply Qlt_bool_iff; rewrite H2; reflexivity).
    unfold Rounded.fdiv.
    apply Qeq_trans with (rnd (1 # 2)%Q); [|exact Hhalf].
    apply rnd_proper. rewrite H1, H2. reflexivity.
Qed.

Lemma daily_summary_spec_witness :
  let t := mk_datetime 2024 3 9 8 0 0 0 in
  let record m u := record_usage m t (round64 u) (round64 (u * (25 # 100))) in
  let self := record (record (record EnergyMonitor_init (1 # 10)) (2 # 10)) (3 # 10) in
  (total_usage (Rounded.get_daily_summary round64 (rounded_sum round64) self)
   == 1351079888211149 # 2251799813685248)%Q /\
  (average_rate (Rounded.get_daily_summary round64 (rounded_sum round64)
                   (record_usage EnergyMonitor_init t 2 1)) == 1 # 2)%Q.
Proof.
  intros t record self.
  destruct (daily_summary_spec round64 (rounded_sum round64) self) as (_ & Hfull & _).
  destruct Hfull as (Hu & _); [discriminate|].
  split.
  - rewrite (Hu (usage_history self)).
    + vm_compute. reflexivity.
    + exists []. split; [reflexivity|]. right. split; [reflexivity|]. cbn. lia.
  - destruct (daily_summary_spec round64 (rounded_sum round64) EnergyMonitor_init)
      as (_ & _ & Hone).
    apply Hone.
    + vm_compute. reflexivity.
    + vm_compute. reflexivity.
    + vm_compute. reflexivity.
    + exact round64_is_rounding.
Defined.

(** ** Scheduler *)

Lemma bind_Ok {A B : Type} (a : A) (k : A -> result B) : (Ok a ≫= k) = k a.
Proof. reflexivity. Qed.

Lemma for_each_app {A S : Type} (body : S -> A -> result S) (xs ys : list A) (s : S) :
  for_each body (xs ++ ys) s = (s' ← for_each body xs s; for_each body ys s').
Proof.
  revert s. induction xs as [|x xs IH]; intros s; cbn [app for_each].
  - reflexivity.
  - destruct (body s x) as [s1 | e]; cbn; [apply IH | reflexivity].
Qed.

Lemma py_range_succ (n : nat) :
  py_range (Z.of_nat (S n)) = py_range (Z.of_nat n) ++ [Z.of_nat n].
Proof.
  unfold py_range. rewrite !Nat2Z.id, seq_S, map_app. reflexivity.
Qed.

Lemma py_range_split (n : Z) (k : nat) :
  Z.of_nat k < n ->
  exists rest, py_range n = py_range (Z.of_nat k) ++ Z.of_nat k :: rest.
Proof.
  intros Hk. unfold py_range. rewrite Nat2Z.id.
  replace (Z.to_nat n) with (k + S (Z.to_nat n - S k))%nat by lia.
  rewrite seq_app, map_app. cbn [seq map Nat.add].
  eexists. reflexivity.
Qed.

Lemma draws_before_succ (n : nat) :
  draws_before (Z.of_nat (S n))
  = (draws_before (Z.of_nat n) + (if is_daylight (Z.of_nat n) then 1 else 0))%nat.
Proof.
  unfold draws_before. rewrite py_range_succ, List.filter_app, length_app.
  cbn [List.filter]. destruct (is_daylight (Z.of_nat n)); reflexivity.
Qed.

Section Scheduler.

Variable ts : TariffSchedule.
Variable off : PeriodDetails.
Hypothesis off_peak_configured : dict_get "off_peak" (periods ts) = Some off.

Lemma rate_at_ok (t : time) : rate_at ts t = Ok (rate_of ts off t).
Proof.
  unfold rate_at, rate_of.
  destruct (first_matching_rate t (periods ts)); [reflexivity|].
  unfold dict_index. rewrite off_peak_configured. reflexivity.
Qed.

Lemma get_current_rate_ok (w : World) :
  get_current_rate ts w
  = Ok (rate_of ts off (dt_time (wall_clock w (now_calls w))), snd (datetime_now w)).
Proof.
  unfold get_current_rate, datetime_now. rewrite rate_at_ok. reflexivity.
Qed.

Lemma should_run_ok (g r : Q) (d : ApplianceDetails) :
  should_run ts g r d = Ok (Qlt_bool (power_usage d) g || Qeq_bool r (rate off)).
Proof.
  unfold should_run. destruct (Qlt_bool (power_usage d) g); [reflexivity|].
  unfold dict_index. rewrite off_peak_configured. reflexivity.
Qed.

Lemma consider_appliance_ok (hour : Z) (g r : Q)
    (schedule : gmap Z (list string)) (item : string * ApplianceDetails) :
  consider_appliance ts hour g r schedule item
  = Ok (if selected off g r item then append_entries hour [fst item] schedule
        else schedule).
Proof.
  destruct item as [name d]. unfold consider_appliance, selected. cbn [fst snd].
  destruct (flexible_timing d); [|reflexivity].
  rewrite should_run_ok. cbn [andb].
  destruct (Qlt_bool (power_usage d) g || Qeq_bool r (rate off)); [|reflexivity].
  cbn. unfold append_entries.
  destruct (schedule !! hour) as [l|] eqn:E.
  - rewrite E. reflexivity.
  - rewrite lookup_insert_eq, insert_insert_eq. reflexivity.
Qed.

Lemma append_entries_cons (hour : Z) (name : string) (names : list string)
    (schedule : gmap Z (list string)) :
  append_entries hour names (append_entries hour [name] schedule)
  = append_entries hour (name :: names) schedule.
Proof.
  unfold append_entries. destruct names as [|n names]; [reflexivity|].
  rewrite lookup_insert_eq, insert_insert_eq.
  change (default [] (Some ?l)) with l.
  rewrite <- app_assoc. reflexivity.
Qed.

Lemma appliance_loop_ok (hour : Z) (g r : Q)
    (appliances : list (string * ApplianceDetails))
    (schedule : gmap Z (list string)) :
  for_each (consider_appliance ts hour g r) appliances schedule
  = Ok (append_entries hour (map fst (List.filter (selected off g r) appliances))
          schedule).
Proof.
  revert schedule. induction appliances as [|item items IH]; intros schedule.
  - reflexivity.
  - cbn [for_each List.filter]. rewrite consider_appliance_ok, bind_Ok.
    destruct (selected off g r item).
    + rewrite IH. cbn [map]. rewrite append_entries_cons. reflexivity.
    + apply IH.
Qed.

Lemma update_generation_eq (s : SolarSystem) (slot : datetime) (w : World) :
  update_generation s slot w
  = (gen_value (capacity_kw s) (dt_hour slot) w,
     mk_SolarSystem (capacity_kw s) (gen_value (capacity_kw s) (dt_hour slot) w)
       (stored_energy s) (max_storage s),
     if is_daylight (dt_hour slot) then snd (random_uniform w) else w).
Proof.
  unfold update_generation, gen_value.
  destruct (is_daylight (dt_hour slot)); reflexivity.
Qed.

Lemma dt_replace_hour_ok (ct : datetime) (hour : Z) :
  0 <= hour <= 23 ->
  exists slot, dt_replace_hour ct hour = Ok slot /\ dt_hour slot = hour.
Proof.
  intros Hh. unfold dt_replace_hour.
  replace ((0 <=? hour) && (hour <=? 23)) with true.
  - eexists. split; reflexivity.
  - symmetry. apply andb_true_iff. split; apply Z.leb_le; lia.
Qed.

Lemma dt_replace_hour_raises (ct : datetime) (hour : Z) :
  23 < hour -> dt_replace_hour ct hour = Raise ValueError.
Proof.
  intros Hh. unfold dt_replace_hour.
  replace (hour <=? 23) with false by (symmetry; apply Z.leb_gt; lia).
  rewrite andb_false_r. reflexivity.
Qed.

Lemma optimize_hour_ok (appliances : list (string * ApplianceDetails))
    (ct : datetime) (w0 : World) (s : SolarSystem)
    (schedule : gmap Z (list string)) (n : nat) :
  (n <= 23)%nat ->
  exists s',
    optimize_hour ts appliances ct (mk_LoopState (loop_world w0 n) s schedule)
      (Z.of_nat n)
    = Ok (mk_LoopState (loop_world w0 (S n)) s'
            (append_entries (Z.of_nat n)
               (names_at ts off appliances (capacity_kw s) w0 (Z.of_nat n)) schedule))
    /\ capacity_kw s' = capacity_kw s.
Proof.
  intros Hn. unfold optimize_hour.
  destruct (dt_replace_hour_ok ct (Z.of_nat n)) as (slot & -> & Hslot); [lia|].
  rewrite bind_Ok. cbn [ls_world ls_solar ls_schedule].
  rewrite get_current_rate_ok, bind_Ok.
  rewrite update_generation_eq, Hslot.
  rewrite appliance_loop_ok, bind_Ok.
  eexists. split.
  - unfold mret, result_ret. f_equal.
    unfold names_at. rewrite Nat2Z.id. cbn [loop_world now_calls wall_clock].
    f_equal.
    unfold loop_world, datetime_now, random_uniform. cbn.
    rewrite draws_before_succ.
    destruct (is_daylight (Z.of_nat n)); cbn; f_equal; lia.
  - reflexivity.
Qed.

Lemma lookup_append_entries (hour h : Z) (names : list string)
    (schedule : gmap Z (list string)) :
  schedule !! hour = None ->
  append_entries hour names schedule !! h
  = if decide (h = hour) then
      match names with [] => None | name :: names' => Some (name :: names') end
    else schedule !! h.
Proof.
  intros Hnone. unfold append_entries.
  destruct names as [|name names'].
  - destruct (decide (h = hour)) as [-> |]; [exact Hnone | reflexivity].
  - rewrite Hnone. destruct (decide (h = hour)) as [-> | Hne].
    + apply lookup_insert_eq.
    + apply lookup_insert_ne. congruence.
Qed.

(** The invariant of [for hour in range(forecast_window_hours)] after [n]
    iterations, which all succeed while [n <= 24]. *)
Lemma hour_loop_ok (appliances : list (string * ApplianceDetails))
    (ct : datetime) (w0 : World) (s0 : SolarSystem) (n : nat) :
  (n <= 24)%nat ->
  exists st,
    for_each (optimize_hour ts appliances ct) (py_range (Z.of_nat n))
      (mk_LoopState (loop_world w0 0) s0 ∅) = Ok st
    /\ ls_world st = loop_world w0 n
    /\ capacity_kw (ls_solar st) = capacity_kw s0
    /\ forall h : Z,
         ls_schedule st !! h
         = if decide (0 <= h < Z.of_nat n)
           then entry_at ts off appliances (capacity_kw s0) w0 h else None.
Proof.
  induction n as [|n IH]; intros Hn.
  - eexists. split; [reflexivity|]. cbn [ls_world ls_solar ls_schedule].
    repeat split. intros h. rewrite lookup_empty.
    destruct (decide (0 <= h < Z.of_nat 0)); [lia | reflexivity].
  - destruct IH as ([w s schedule] & Hrun & Hw & Hs & Hsched); [lia|].
    cbn [ls_world ls_solar ls_schedule] in Hw, Hs, Hsched. subst w.
    destruct (optimize_hour_ok appliances ct w0 s schedule n) as (s' & Hstep & Hs');
      [lia|].
    eexists. rewrite py_range_succ, for_each_app, Hrun, bind_Ok.
    cbn [for_each]. rewrite Hstep, bind_Ok.
    split; [reflexivity|]. cbn [ls_world ls_solar ls_schedule].
    split; [reflexivity|]. split; [congruence|].
    intros h. rewrite lookup_append_entries.
    + rewrite Hs, Hsched. unfold entry_at.
      destruct (decide (h = Z.of_nat n)) as [-> | Hne].
      * destruct (decide (0 <= Z.of_nat n < Z.of_nat (S n))); [reflexivity | lia].
      * destruct (decide (0 <= h < Z.of_nat n));
          destruct (decide (0 <= h < Z.of_nat (S n))); try lia; reflexivity.
    + rewrite Hsched.
      destruct (decide (0 <= Z.of_nat n < Z.of_nat n)); [lia | reflexivity].
Qed.

(** Past hour 23 the construction of the time slot raises, whatever was
    scheduled before. *)
Lemma hour_loop_raises (appliances : list (string * ApplianceDetails))
    (ct : datetime) (w0 : World) (s0 : SolarSystem) (window : Z) :
  24 < window ->
  for_each (optimize_hour ts appliances ct) (py_range window)
    (mk_LoopState (loop_world w0 0) s0 ∅) = Raise ValueError.
Proof.
  intros Hwin.
  destruct (py_range_split window 24) as (rest & ->); [lia|].
  destruct (hour_loop_ok appliances ct w0 s0 24) as (st & Hrun & _); [lia|].
  rewrite for_each_app, Hrun, bind_Ok. cbn [for_each].
  unfold optimize_hour. rewrite dt_replace_hour_raises by lia.
  reflexivity.
Qed.

Lemma in_names_at (appliances : list (string * ApplianceDetails)) (c : Q)
    (w0 : World) (h : Z) (name : string) :
  In name (names_at ts off appliances c w0 h) <->
  exists details,
    In (name, details) appliances /\
    selected off (gen_value c h (loop_world w0 (Z.to_nat h)))
      (rate_of ts off (dt_time (wall_clock w0 (now_calls w0 + Z.to_nat h))))
      (name, details) = true.
Proof.
  unfold names_at. cbn [loop_world now_calls wall_clock].
  rewrite in_map_iff. split.
  - intros ([name' details] & <- & Hin). apply filter_In in Hin.
    exists details. exact Hin.
  - intros (details & Hin). exists (name, details).
    split; [reflexivity|]. apply filter_In. exact Hin.
Qed.

Lemma in_entry_at (appliances : list (string * ApplianceDetails)) (c : Q)
    (w0 : World) (h : Z) (name : string) :
  In name (default [] (entry_at ts off appliances c w0 h))
  <-> In name (names_at ts off appliances c w0 h).
Proof.
  unfold entry_at. destruct (names_at ts off appliances c w0 h); reflexivity.
Qed.

End Scheduler.

(** ** Registry and runs of the scheduler *)

Lemma dict_get_In {V : Type} (k : string) (v : V) (d : list (string * V)) :
  NoDup (map fst d) -> (dict_get k d = Some v <-> In (k, v) d).
Proof.
  induction d as [|[k' v'] d IH]; intros Hnd; cbn [dict_get In].
  - split; [discriminate | tauto].
  - cbn [map fst] in Hnd. apply NoDup_cons in Hnd as [Hnotin Hnd].
    destruct (String.eqb k k') eqn:E.
    + apply String.eqb_eq in E. subst k'. split.
      * intros [= ->]. now left.
      * intros [[= ->] | Hin]; [reflexivity|].
        exfalso. apply Hnotin. apply list_elem_of_In.
        apply in_map_iff. exists (k, v). split; [reflexivity | exact Hin].
    + apply String.eqb_neq in E. rewrite (IH Hnd). split.
      * intros Hin. now right.
      * intros [[= -> _] | Hin]; [congruence | exact Hin].
Qed.

Lemma dict_set_keys {V : Type} (k x : string) (v : V) (d : list (string * V)) :
  In x (map fst (dict_set k v d)) -> x = k \/ In x (map fst d).
Proof.
  induction d as [|[k' v'] d IH]; cbn [dict_set map fst In].
  - intros [<- | []]. now left.
  - destruct (String.eqb k k'); cbn [map fst In]; tauto.
Qed.

Lemma dict_set_keeps_keys_distinct {V : Type} (k : string) (v : V)
    (d : list (string * V)) :
  NoDup (map fst d) -> NoDup (map fst (dict_set k v d)).
Proof.
  induction d as [|[k' v'] d IH]; intros Hnd; cbn [dict_set map fst].
  - apply NoDup_singleton.
  - cbn [map fst] in Hnd. apply NoDup_cons in Hnd as [Hnotin Hnd].
    destruct (String.eqb k k') eqn:E; cbn [map fst].
    + apply NoDup_cons. split; assumption.
    + apply String.eqb_neq in E. apply NoDup_cons. split; [|exact (IH Hnd)].
      rewrite list_elem_of_In in *. intros Hin.
      apply dict_set_keys in Hin as [-> | Hin]; [congruence | tauto].
Qed.

(** Every registry built with [add_appliance] has distinct names. *)
Lemma add_appliance_keeps_names_distinct (self : EnergyOptimizer)
    (name : string) (power : Q) (flexible : bool) :
  NoDup (map fst (appliance_schedule self)) ->
  NoDup (map fst (appliance_schedule (add_appliance self name power flexible))).
Proof. apply dict_set_keeps_keys_distinct. Qed.

Lemma loop_world_start (w : World) :
  loop_world (snd (datetime_now w)) 0 = snd (datetime_now w).
Proof.
  unfold loop_world, datetime_now.
  cbn [snd wall_clock now_calls uniform_stream uniform_calls].
  change (draws_before (Z.of_nat 0)) with 0%nat.
  rewrite !Nat.add_0_r. reflexivity.
Qed.

(** What [optimize_schedule] returns, in terms of the loop invariant. *)
Lemma optimize_schedule_ok (self : EnergyOptimizer) (off : PeriodDetails)
    (window : Z) (w : World) :
  dict_get "off_peak" (periods (tariff_schedule self)) = Some off ->
  window <= 24 ->
  exists sched self' w',
    optimize_schedule self window w = Ok (sched, self', w') /\
    forall h : Z,
      sched !! h
      = if decide (0 <= h < window)
        then entry_at (tariff_schedule self) off (appliance_schedule self)
               (capacity_kw (solar_system self)) (snd (datetime_now w)) h
        else None.
Proof.
  intros Hoff Hwin. unfold optimize_schedule.
  destruct (datetime_now w) as [ct w0] eqn:Enow.
  assert (Ew0 : w0 = snd (datetime_now w)) by (rewrite Enow; reflexivity).
  destruct (hour_loop_ok (tariff_schedule self) off Hoff (appliance_schedule self)
              ct w0 (solar_system self) (Z.to_nat window))
    as (st & Hrun & _ & _ & Hsched); [lia|].
  assert (Erange : py_range (Z.of_nat (Z.to_nat window)) = py_range window).
  { unfold py_range. rewrite Nat2Z.id. reflexivity. }
  rewrite Erange in Hrun.
  rewrite Ew0, loop_world_start in Hrun. rewrite Ew0, Hrun, bind_Ok.
  do 3 eexists. split; [reflexivity|].
  intros h. rewrite Hsched, <- Ew0.
  destruct (decide (0 <= h < Z.of_nat (Z.to_nat window)));
    destruct (decide (0 <= h < window)); try lia; reflexivity.
Qed.

Lemma optimize_schedule_raises (self : EnergyOptimizer) (off : PeriodDetails)
    (window : Z) (w : World) :
  dict_get "off_peak" (periods (tariff_schedule self)) = Some off ->
  24 < window ->
  optimize_schedule self window w = Raise ValueError.
Proof.
  intros Hoff Hwin. unfold optimize_schedule.
  destruct (datetime_now w) as [ct w0] eqn:Enow.
  assert (Ew0 : w0 = snd (datetime_now w)) by (rewrite Enow; reflexivity).
  pose proof (hour_loop_raises (tariff_schedule self) off Hoff
                (appliance_schedule self) ct w0 (solar_system self) window Hwin)
    as Hrun.
  rewrite Ew0, loop_world_start in Hrun. rewrite Ew0, Hrun. reflexivity.
Qed.

(** C9: with an off-peak period configured (as the constructor of
    [TariffSchedule] does), [optimize_schedule] returns a schedule for every
    window from 0 to 24 and raises [ValueError] for every larger window:
    [replace(hour=24)] is refused, and no schedule is returned. *)
Theorem optimize_schedule_window_limit (self : EnergyOptimizer) (window : Z)
    (w : World) :
  is_Some (dict_get "off_peak" (periods (tariff_schedule self))) ->
  (0 <= window <= 24 ->
     exists sched self' w', optimize_schedule self window w = Ok (sched, self', w')) /\
  (24 < window -> optimize_schedule self window w = Raise ValueError).
Proof.
  intros [off Hoff]. split.
  - intros [_ Hwin].
    destruct (optimize_schedule_ok self off window w Hoff Hwin)
      as (sched & self' & w' & Hrun & _).
    eauto.
  - apply (optimize_schedule_raises self off window w Hoff).
Qed.

Lemma optimize_schedule_window_limit_witness :
  let w := frozen_world 12 0 (9 # 10) in
  (exists sched self' w',
     optimize_schedule one_pump 24 w = Ok (sched, self', w')) /\
  optimize_schedule one_pump 25 w = Raise ValueError.
Proof.
  intros w.
  pose proof (optimize_schedule_window_limit one_pump 24 w) as H24.
  pose proof (optimize_schedule_window_limit one_pump 25 w) as H25.
  split.
  - apply H24; [eexists; reflexivity | lia].
  - apply H25; [eexists; reflexivity | lia].
Defined.

(** C1: when [optimize_schedule] returns, the list of every hour [h] of the
    window holds a registered appliance exactly when the appliance is
    flexible and either the generation computed for hour [h] exceeds its
    power draw or the rate obtained for hour [h] equals the off-peak rate
    0.15; in particular an appliance that is not flexible is in no list.
    The rate and the generation are those the iteration for hour [h]
    obtains from [get_current_rate] and [update_generation]. *)
Theorem schedule_membership (self : EnergyOptimizer) (window : Z) (w : World)
    (sched : gmap Z (list string)) (self' : EnergyOptimizer) (w' : World) :
  tariff_schedule self = TariffSchedule_init ->
  NoDup (map fst (appliance_schedule self)) ->
  optimize_schedule self window w = Ok (sched, self', w') ->
  forall h : Z, 0 <= h < window ->
  exists (r : Q) (w1 : World) (time_slot : datetime),
    get_current_rate TariffSchedule_init (world_at w h) = Ok (r, w1) /\
    dt_replace_hour (wall_clock w (now_calls w)) h = Ok time_slot /\
    let g := fst (fst (update_generation (solar_system self) time_slot w1)) in
    (forall name, In name (default [] (sched !! h)) ->
       is_Some (dict_get name (appliance_schedule self))) /\
    (forall name details,
       dict_get name (appliance_schedule self) = Some details ->
       (In name (default [] (sched !! h)) <->
        flexible_timing details = true /\
        ((power_usage details < g)%Q \/ (r == 15 # 100)%Q))).
Proof.
  intros Hts Hnd Hrun h Hh.
  assert (Hoff : dict_get "off_peak" (periods (tariff_schedule self))
                 = Some default_off_peak) by (rewrite Hts; reflexivity).
  assert (Hwin : window <= 24).
  { destruct (Z_le_gt_dec window 24) as [Hle | Hgt]; [exact Hle|].
    rewrite (optimize_schedule_raises self _ window w Hoff) in Hrun by lia.
    discriminate. }
  destruct (optimize_schedule_ok self _ window w Hoff Hwin)
    as (sched0 & self0 & w0 & Hrun0 & Hsched).
  rewrite Hrun in Hrun0. injection Hrun0 as <- <- <-.
  specialize (Hsched h). destruct (decide (0 <= h < window)); [|lia].
  rewrite Hts in Hoff. cbn [periods] in Hoff.
  destruct (dt_replace_hour_ok (wall_clock w (now_calls w)) h) as (slot & Hslot & Hhour);
    [lia|].
  exists (rate_of TariffSchedule_init default_off_peak
            (dt_time (wall_clock (world_at w h) (now_calls (world_at w h))))),
         (snd (datetime_now (world_at w h))), slot.
  split; [apply (get_current_rate_ok _ _ Hoff)|].
  split; [exact Hslot|].
  rewrite update_generation_eq, Hhour. cbn [fst].
  rewrite Hsched, Hts.
  split.
  - intros name Hin. apply in_entry_at, in_names_at in Hin as (details & Hin & _).
    exists details. apply dict_get_In; assumption.
  - intros name details Hget.
    rewrite in_entry_at, in_names_at.
    unfold selected. cbn [snd].
    split.
    + intros (details' & Hin & Hsel).
      apply (dict_get_In _ _ _ Hnd) in Hin.
      assert (details' = details) by congruence. subst details'.
      apply andb_true_iff in Hsel as [Hflex Hcond]. split; [exact Hflex|].
      apply orb_true_iff in Hcond as [Hgen | Hrate].
      * left. apply Qlt_bool_iff. exact Hgen.
      * right. apply Qeq_bool_iff. exact Hrate.
    + intros [Hflex Hcond]. exists details.
      split; [apply (dict_get_In _ _ _ Hnd); exact Hget|].
      apply andb_true_iff. split; [exact Hflex|].
      apply orb_true_iff. destruct Hcond as [Hgen | Hrate].
      * left. apply Qlt_bool_iff. exact Hgen.
      * right. apply Qeq_bool_iff. exact Hrate.
Qed.

Lemma schedule_membership_witness :
  let w := frozen_world 23 0 (9 # 10) in
  match optimize_schedule one_pump 24 w with
  | Ok (sched, _, _) => In "Pool Pump"%string (default [] (sched !! 15))
  | Raise _ => False
  end.
Proof.
  intros w.
  destruct (optimize_schedule one_pump 24 w) as [[[sched self'] w'] | e] eqn:Hrun.
  - destruct (schedule_membership one_pump 24 w sched self' w')
      with (h := 15) as (r & w1 & slot & Hrate & _ & _ & Hiff).
    + reflexivity.
    + cbn. apply NoDup_singleton.
    + exact Hrun.
    + lia.
    + vm_compute in Hrate. injection Hrate as <- _.
      apply (Hiff "Pool Pump"%string (mk_appliance 1 true [])).
      * reflexivity.
      * split; [reflexivity | right; reflexivity].
  - vm_compute in Hrun. discriminate Hrun.
Defined.

(** C3, evaluated: called at 23:00, the scheduler decides hour 15 with the
    rate of 23:00.  The period containing 15:00 is the peak period (0.40)
    and the generation of hour 15 (0.45) is below the pump's draw (1), yet
    the rate obtained in that iteration is the off-peak 0.15 and the pump is
    scheduled; called at 15:00 the same run leaves hour 15 empty. *)
Theorem rate_taken_from_wall_clock :
  let w := frozen_world 23 0 (9 # 10) in
  let slot := mk_datetime 2024 3 9 15 0 0 0 in
  dt_replace_hour (wall_clock w (now_calls w)) 15 = Ok slot /\
  rate_at TariffSchedule_init (dt_time slot) = Ok (40 # 100) /\
  get_current_rate TariffSchedule_init (world_at w 15)
  = Ok (15 # 100, snd (datetime_now (world_at w 15))) /\
  (fst (fst (update_generation (solar_system one_pump) slot (world_at w 15)))
   == 9 # 20)%Q /\
  scheduled_at (optimize_schedule one_pump 24 w) 15 = Ok ["Pool Pump"%string] /\
  scheduled_at (optimize_schedule one_pump 24 (frozen_world 15 0 (9 # 10))) 15 = Ok [].
Proof.
  repeat split; vm_compute; reflexivity.
Qed.

(** C8, evaluated: two runs with the same window, the same registry and
    the same random stream, one called at 12:00 and one at 23:00, return
    different lists for hour 2. *)
Theorem schedule_depends_on_call_time :
  let noon := frozen_world 12 0 (9 # 10) in
  let night := frozen_world 23 0 (9 # 10) in
  uniform_stream noon = uniform_stream night /\
  uniform_calls noon = uniform_calls night /\
  scheduled_at (optimize_schedule one_pump 24 noon) 2 = Ok [] /\
  scheduled_at (optimize_schedule one_pump 24 night) 2 = Ok ["Pool Pump"%string].
Proof.
  repeat split; vm_compute; reflexivity.
Qed.

(** * Further properties *)

(** ** Tariff periods *)

Ltac split_comparisons :=
  repeat match goal with
         | |- context [?a <? ?b] => destruct (Z.ltb_spec a b)
         | |- context [?a <=? ?b] => destruct (Z.leb_spec a b)
         end.

Lemma default_period_matches (t : time) :
  valid_time t ->
  period_matches t (mk_period (time_hm 14 0) (time_hm 20 0) (40 # 100))
  = (14 <=? t_hour t) && (t_hour t <? 20) /\
  period_matches t (mk_period (time_hm 7 0) (time_hm 14 0) (25 # 100))
  = (7 <=? t_hour t) && (t_hour t <? 14) /\
  period_matches t (mk_period (time_hm 20 0) (time_hm 7 0) (15 # 100))
  = (20 <=? t_hour t) || (t_hour t <? 7).
Proof.
  intros (Hh & Hm & Hs & Hu).
  unfold period_matches, time_leb, time_geb, time_ltb, time_hm.
  cbn [start end_ t_hour t_minute t_second t_microsecond].
  repeat split; split_comparisons; cbn; try lia; reflexivity.
Qed.

(** X1: every valid time of day lies in exactly one of the three default
    periods, so the order in which the periods are visited is immaterial
    and the fallback after the loop is never reached. *)
Theorem default_periods_partition (t : time) :
  valid_time t ->
  length (List.filter (fun item => period_matches t (snd item))
            (periods TariffSchedule_init)) = 1%nat /\
  is_Some (first_matching_rate t (periods TariffSchedule_init)).
Proof.
  intros Ht.
  destruct (default_period_matches t Ht) as (Hpeak & Hshoulder & Hoff).
  destruct Ht as (Hh & _).
  cbn [periods TariffSchedule_init List.filter first_matching_rate snd].
  rewrite Hpeak, Hshoulder, Hoff.
  split; split_comparisons; cbn; try lia; eauto.
Qed.

Lemma default_periods_partition_witness :
  length (List.filter (fun item => period_matches (mk_time 6 59 59 999999) (snd item))
            (periods TariffSchedule_init)) = 1%nat.
Proof.
  refine (proj1 (default_periods_partition (mk_time 6 59 59 999999) _)).
  unfold valid_time; cbn; lia.
Defined.

Lemma default_rate_at_hour (t : time) :
  valid_time t ->
  rate_at TariffSchedule_init t = Ok (default_rate_of_hour (t_hour t)).
Proof.
  intros Ht.
  destruct (default_period_matches t Ht) as (Hpeak & Hshoulder & Hoff).
  destruct Ht as (Hh & _).
  unfold rate_at, default_rate_of_hour.
  cbn [periods TariffSchedule_init first_matching_rate].
  rewrite Hpeak, Hshoulder, Hoff.
  split_comparisons; cbn; try lia; reflexivity.
Qed.

(** X2: with the default periods the rate depends on the hour of the clock
    reading only: 0.25 from 7 to 13, 0.40 from 14 to 19 and 0.15 from 20 to
    6, whatever the minutes, seconds and microseconds. *)
Theorem default_rate_depends_on_hour_only (w : World) :
  let now := wall_clock w (now_calls w) in
  valid_time (dt_time now) ->
  get_current_rate TariffSchedule_init w
  = Ok (default_rate_of_hour (dt_hour now), snd (datetime_now w)).
Proof.
  intros now Hvalid. unfold get_current_rate, datetime_now. fold now.
  rewrite (default_rate_at_hour _ Hvalid). reflexivity.
Qed.

Lemma default_rate_depends_on_hour_only_witness :
  let w := mk_World (fun _ => mk_datetime 2024 3 9 19 59 59 999999) 0 (fun _ => 1%Q) 0 in
  get_current_rate TariffSchedule_init w = Ok (40 # 100, snd (datetime_now w))%Q.
Proof.
  intros w.
  refine (default_rate_depends_on_hour_only w _).
  unfold valid_time; cbn; lia.
Defined.

Lemma first_matching_rate_Some (t : time) (items : list (string * PeriodDetails))
    (r : Q) :
  first_matching_rate t items = Some r ->
  exists name p, In (name, p) items /\ period_matches t p = true /\ rate p = r.
Proof.
  induction items as [|[name p] items IH]; cbn [first_matching_rate].
  - discriminate.
  - destruct (period_matches t p) eqn:E.
    + intros [= <-]. exists name, p. repeat split; [now left | exact E].
    + intros H. destruct (IH H) as (name' & p' & Hin & Hm & Hr).
      exists name', p'. repeat split; [now right | exact Hm | exact Hr].
Qed.

Lemma first_matching_rate_None (t : time) (items : list (string * PeriodDetails)) :
  first_matching_rate t items = None <->
  forall name p, In (name, p) items -> period_matches t p = false.
Proof.
  induction items as [|[name p] items IH]; cbn [first_matching_rate In].
  - split; [intros _ ? ? [] | reflexivity].
  - destruct (period_matches t p) eqn:E.
    + split; [discriminate|]. intros H.
      specialize (H name p (or_introl eq_refl)). congruence.
    + rewrite IH. split.
      * intros H name' p' [[= <- <-] | Hin]; [exact E | exact (H _ _ Hin)].
      * intros H name' p' Hin. apply (H name' p'). now right.
Qed.

Lemma dict_get_Some_In {V : Type} (k : string) (v : V) (d : list (string * V)) :
  dict_get k d = Some v -> In (k, v) d.
Proof.
  induction d as [|[k' v'] d IH]; cbn [dict_get In]; [discriminate|].
  destruct (String.eqb k k') eqn:E.
  - apply String.eqb_eq in E. intros [= ->]. left. congruence.
  - intros H. right. exact (IH H).
Qed.

(** X3: a rate returned by [get_current_rate] is the rate of a configured
    period: one that contains the clock reading or, when none does, the
    ['off_peak'] entry; the call reads the clock once and leaves the random
    source alone. *)
Theorem get_current_rate_returns_configured_rate (self : TariffSchedule)
    (w w' : World) (r : Q) :
  get_current_rate self w = Ok (r, w') ->
  let t := dt_time (wall_clock w (now_calls w)) in
  (exists name p, In (name, p) (periods self) /\ rate p = r /\
     (period_matches t p = true \/
      (name = "off_peak"%string /\
       forall name' p', In (name', p') (periods self) ->
                        period_matches t p' = false))) /\
  w' = mk_World (wall_clock w) (S (now_calls w)) (uniform_stream w) (uniform_calls w).
Proof.
  intros Hrun t. unfold get_current_rate, datetime_now, rate_at in Hrun.
  fold t in Hrun.
  destruct (first_matching_rate t (periods self)) as [r0|] eqn:E.
  - injection Hrun as <- <-. split; [|reflexivity].
    destruct (first_matching_rate_Some _ _ _ E) as (name & p & Hin & Hm & Hr).
    exists name, p. auto.
  - unfold dict_index in Hrun.
    destruct (dict_get "off_peak" (periods self)) as [p|] eqn:Eoff; [|discriminate].
    injection Hrun as <- <-. split; [|reflexivity].
    exists "off_peak"%string, p. split; [exact (dict_get_Some_In _ _ _ Eoff)|].
    split; [reflexivity|]. right. split; [reflexivity|].
    apply first_matching_rate_None. exact E.
Qed.

Lemma get_current_rate_returns_configured_rate_witness :
  let w := frozen_world 3 30 1 in
  exists name p, In (name, p) (periods TariffSchedule_init) /\ rate p = (15 # 100)%Q.
Proof.
  intros w.
  destruct (get_current_rate_returns_configured_rate TariffSchedule_init w
              (snd (datetime_now w)) (15 # 100)) as ((name & p & Hin & Hr & _) & _).
  - reflexivity.
  - exists name, p. split; assumption.
Defined.

Lemma get_current_rate_error (self : TariffSchedule) (w : World) (e : exn) :
  get_current_rate self w = Raise e -> e = KeyError.
Proof.
  unfold get_current_rate, datetime_now, rate_at, dict_index.
  destruct (first_matching_rate _ (periods self)); cbn; [discriminate|].
  destruct (dict_get "off_peak" (periods self)); cbn; [discriminate|].
  intros [= <-]. reflexivity.
Qed.

(** X4: [get_current_rate] raises only [KeyError], and exactly when no
    period contains the clock reading and there is no ['off_peak'] entry to
    fall back on. *)
Theorem get_current_rate_raises_iff (self : TariffSchedule) (w : World) (e : exn) :
  let t := dt_time (wall_clock w (now_calls w)) in
  get_current_rate self w = Raise e <->
  e = KeyError /\
  (forall name p, In (name, p) (periods self) -> period_matches t p = false) /\
  dict_get "off_peak" (periods self) = None.
Proof.
  intros t. unfold get_current_rate, datetime_now, rate_at. fold t.
  rewrite <- first_matching_rate_None.
  destruct (first_matching_rate t (periods self)) as [r0|] eqn:E.
  - cbn. split; [discriminate | intros (_ & H & _); discriminate].
  - unfold dict_index.
    destruct (dict_get "off_peak" (periods self)) as [p|] eqn:Eoff; cbn.
    + split; [discriminate | intros (_ & _ & H); discriminate].
    + split.
      * intros [= <-]. auto.
      * intros (-> & _). reflexivity.
Qed.

Lemma get_current_rate_raises_iff_witness :
  get_current_rate (mk_TariffSchedule []) (frozen_world 12 0 1) = Raise KeyError.
Proof.
  apply (get_current_rate_raises_iff (mk_TariffSchedule []) (frozen_world 12 0 1)).
  split; [reflexivity|]. split; [intros name p []|reflexivity].
Defined.

Lemma time_ltb_irrefl (a : time) : time_ltb a a = false.
Proof. unfold time_ltb. split_comparisons; try lia; reflexivity. Qed.

Lemma time_ltb_asym (a b : time) : time_ltb a b = true -> time_ltb b a = false.
Proof.
  unfold time_ltb. split_comparisons; try lia; try discriminate; reflexivity.
Qed.

(** X5: a period whose start and end coincide contains no time of day: it
    is taken as an empty interval, not as the whole day. *)
Theorem empty_period_never_matches (t : time) (p : PeriodDetails) :
  start p = end_ p -> period_matches t p = false.
Proof.
  intros E. unfold period_matches, time_leb. rewrite E, time_ltb_irrefl.
  destruct (time_ltb t (end_ p)); reflexivity.
Qed.

Lemma empty_period_never_matches_witness :
  period_matches (time_hm 9 0) (mk_period (time_hm 9 0) (time_hm 9 0) 1) = false.
Proof.
  apply (empty_period_never_matches (time_hm 9 0)
           (mk_period (time_hm 9 0) (time_hm 9 0) 1)).
  reflexivity.
Defined.

(** X6: a period that wraps midnight contains exactly the times that the
    period with start and end exchanged does not contain. *)
Theorem wrapping_period_is_complement (t : time) (p : PeriodDetails) :
  time_ltb (end_ p) (start p) = true ->
  period_matches t p
  = negb (period_matches t (mk_period (end_ p) (start p) (rate p))).
Proof.
  intros Hwrap. unfold period_matches, time_leb, time_geb.
  cbn [start end_]. rewrite Hwrap, (time_ltb_asym _ _ Hwrap).
  destruct (time_ltb t (start p)), (time_ltb t (end_ p)); reflexivity.
Qed.

Lemma wrapping_period_is_complement_witness :
  period_matches (time_hm 23 0) default_off_peak
  = negb (period_matches (time_hm 23 0)
            (mk_period (time_hm 7 0) (time_hm 20 0) (15 # 100))).
Proof.
  apply (wrapping_period_is_complement (time_hm 23 0) default_off_peak).
  reflexivity.
Defined.

(** ** Generation curve *)

Lemma daylight_factor_monotone (h1 h2 : Z) :
  Z.abs (h1 - 12) <= Z.abs (h2 - 12) ->
  (daylight_factor h2 <= daylight_factor h1)%Q.
Proof.
  intros H. unfold daylight_factor. rewrite Zle_Qle in H.
  set (k1 := inject_Z (Z.abs (h1 - 12))) in *.
  set (k2 := inject_Z (Z.abs (h2 - 12))) in *.
  assert (E1 : (k1 / 6 == k1 * (1 # 6))%Q) by reflexivity.
  assert (E2 : (k2 / 6 == k2 * (1 # 6))%Q) by reflexivity.
  rewrite E1, E2. lra.
Qed.

Lemma gen_value_nonneg (c : Q) (h : Z) (w : World) :
  (0 <= c)%Q -> (0 <= uniform_stream w (uniform_calls w))%Q ->
  (0 <= gen_value c h w)%Q.
Proof.
  intros Hc Hu. unfold gen_value. destruct (is_daylight h) eqn:E; [|lra].
  apply is_daylight_iff in E.
  destruct (daylight_factor_range h E) as [Hf _].
  set (f := daylight_factor h) in *.
  set (u := uniform_stream w (uniform_calls w)) in *.
  assert (0 <= c * f)%Q by nra. nra.
Qed.

(** X7: with a non-negative capacity and the same non-negative draw of the
    random source, an hour at least as close to noon generates at least as
    much: the curve peaks at 12 and falls off on both sides. *)
Theorem generation_falls_off_from_noon (self : SolarSystem)
    (slot1 slot2 : datetime) (w : World) :
  (0 <= capacity_kw self)%Q ->
  (0 <= uniform_stream w (uniform_calls w))%Q ->
  Z.abs (dt_hour slot1 - 12) <= Z.abs (dt_hour slot2 - 12) ->
  (fst (fst (update_generation self slot2 w))
   <= fst (fst (update_generation self slot1 w)))%Q.
Proof.
  intros Hc Hu Hcloser. rewrite !update_generation_eq. cbn [fst].
  unfold gen_value at 1.
  destruct (is_daylight (dt_hour slot2)) eqn:E2.
  - apply is_daylight_iff in E2.
    assert (E1 : is_daylight (dt_hour slot1) = true) by (apply is_daylight_iff; lia).
    unfold gen_value. rewrite E1.
    pose proof (daylight_factor_monotone _ _ Hcloser) as Hmono.
    apply is_daylight_iff in E1.
    destruct (daylight_factor_range _ E1) as [Hf1 _].
    destruct (daylight_factor_range _ E2) as [Hf2 _].
    set (f1 := daylight_factor (dt_hour slot1)) in *.
    set (f2 := daylight_factor (dt_hour slot2)) in *.
    set (u := uniform_stream w (uniform_calls w)) in *.
    set (c := capacity_kw self) in *.
    assert (c * f2 <= c * f1)%Q by nra. nra.
  - apply gen_value_nonneg; assumption.
Qed.

Lemma generation_falls_off_from_noon_witness :
  let w := frozen_world 0 0 (9 # 10) in
  (fst (fst (update_generation (SolarSystem_init 10)
               (mk_datetime 2024 3 9 16 0 0 0) w))
   <= fst (fst (update_generation (SolarSystem_init 10)
                  (mk_datetime 2024 3 9 9 0 0 0) w)))%Q.
Proof.
  intros w.
  apply (generation_falls_off_from_noon (SolarSystem_init 10)
           (mk_datetime 2024 3 9 9 0 0 0) (mk_datetime 2024 3 9 16 0 0 0) w);
    cbn; first [lra | lia].
Defined.

(** X8: the noon peak survives the noise: with a non-negative capacity and
    multipliers in [0.8, 1.0], the generation at hour 12 is at least the
    generation at any hour two or more hours away from noon, even when the
    two calls draw different multipliers. *)
Theorem noon_peak_despite_noise (self : SolarSystem) (noon slot : datetime)
    (w1 w2 : World) :
  (0 <= capacity_kw self)%Q ->
  (8 # 10 <= uniform_stream w1 (uniform_calls w1) <= 1)%Q ->
  (8 # 10 <= uniform_stream w2 (uniform_calls w2) <= 1)%Q ->
  dt_hour noon = 12 ->
  2 <= Z.abs (dt_hour slot - 12) ->
  (fst (fst (update_generation self slot w2))
   <= fst (fst (update_generation self noon w1)))%Q.
Proof.
  intros Hc [Hu1 Hu1'] [Hu2 Hu2'] Hnoon Hfar.
  rewrite !update_generation_eq. cbn [fst]. rewrite Hnoon.
  unfold gen_value. change (is_daylight 12) with true. cbv iota.
  assert (E12 : (daylight_factor 12 == 1)%Q) by reflexivity.
  rewrite E12.
  set (c := capacity_kw self) in *.
  set (u1 := uniform_stream w1 (uniform_calls w1)) in *.
  set (u2 := uniform_stream w2 (uniform_calls w2)) in *.
  destruct (is_daylight (dt_hour slot)) eqn:E.
  - apply is_daylight_iff in E.
    pose proof (daylight_factor_monotone 14 (dt_hour slot)) as Hmono.
    assert (E14 : (daylight_factor 14 == 2 # 3)%Q) by reflexivity.
    rewrite E14 in Hmono.
    destruct (daylight_factor_range _ E) as [Hf _].
    set (f := daylight_factor (dt_hour slot)) in *.
    assert (Hf' : (f <= 2 # 3)%Q) by (apply Hmono; change (Z.abs (14 - 12)) with 2; lia).
    assert (0 <= c * f)%Q by nra.
    assert (c * f <= c * (2 # 3))%Q by nra.
    assert (c * f * u2 <= c * f)%Q by nra.
    assert (c * (8 # 10) <= c * 1 * u1)%Q by nra.
    nra.
  - nra.
Qed.

Lemma noon_peak_despite_noise_witness :
  (fst (fst (update_generation (SolarSystem_init 10)
               (mk_datetime 2024 3 9 10 0 0 0) (frozen_world 0 0 1)))
   <= fst (fst (update_generation (SolarSystem_init 10)
                  (mk_datetime 2024 3 9 12 0 0 0) (frozen_world 0 0 (8 # 10)))))%Q.
Proof.
  apply (noon_peak_despite_noise (SolarSystem_init 10)
           (mk_datetime 2024 3 9 12 0 0 0) (mk_datetime 2024 3 9 10 0 0 0)
           (frozen_world 0 0 (8 # 10)) (frozen_world 0 0 1));
    cbn; first [lra | lia | reflexivity].
Defined.

(** ** Storage buffer *)

(** X9: the charge is not conserved, in binary64.  On a fresh
    [SolarSystem(1e16)] holding 1e16, [store_energy(1)] returns 1 and
    leaves [stored_energy] as it was; and on a fresh [SolarSystem(1.0)]
    holding 0.1, stores that return 0.1 and 0.4 leave 0.6000000000000001,
    more than the initial charge plus what the stores returned. *)
Theorem storage_is_not_conserved :
  let big := snd (Rounded.store_energy round64
                    (Rounded.SolarSystem_init round64 (10 ^ 16)) (10 ^ 16)) in
  let tenth := snd (Rounded.store_energy round64
                      (Rounded.SolarSystem_init round64 1) (round64 (1 # 10))) in
  let first := Rounded.store_energy round64 tenth (round64 (1 # 10)) in
  let second := Rounded.store_energy round64 (snd first) (round64 (4 # 10)) in
  ((stored_energy big == 10 ^ 16)%Q /\
   (fst (Rounded.store_energy round64 big 1) == 1)%Q /\
   (stored_energy (snd (Rounded.store_energy round64 big 1)) == stored_energy big)%Q) /\
  ((fst first == round64 (1 # 10))%Q /\ (fst second == round64 (4 # 10))%Q /\
   (stored_energy (snd second) == 1351079888211149 # 2251799813685248)%Q /\
   (stored_energy tenth + (fst first + fst second) < stored_energy (snd second))%Q).
Proof.
  cbv zeta. repeat split; vm_compute; reflexivity.
Qed.

(** X10: in a state within bounds a non-negative request moves a
    non-negative amount, never more than requested, never more than the
    free capacity as the float subtraction gives it (store) or the charge
    (use). *)
Theorem moved_amount_bounds (rnd : Q -> Q) (s : SolarSystem) (a : Q) :
  Rounding rnd ->
  storage_ok s -> (0 <= a)%Q ->
  (0 <= fst (Rounded.store_energy rnd s a) <= a)%Q /\
  (fst (Rounded.store_energy rnd s a) <= rnd (max_storage s - stored_energy s))%Q /\
  (0 <= fst (Rounded.use_stored_energy rnd s a) <= a)%Q /\
  (fst (Rounded.use_stored_energy rnd s a) <= stored_energy s)%Q.
Proof.
  intros R [H0 H1] Ha.
  unfold Rounded.store_energy, Rounded.use_stored_energy. cbn [fst].
  unfold Rounded.fsub.
  assert (Hav : (0 <= rnd (max_storage s - stored_energy s))%Q)
    by (apply rnd_nonneg; [exact R | lra]).
  set (avail := rnd (max_storage s - stored_energy s)%Q) in *.
  destruct (py_min_spec a avail) as (Hl & Hr & [E | E]);
    destruct (py_min_spec a (stored_energy s)) as (Hl' & Hr' & [E' | E']);
    rewrite E, E' in *; repeat split; lra.
Qed.

Lemma moved_amount_bounds_witness :
  let s := snd (Rounded.store_energy round64
                  (Rounded.SolarSystem_init round64 (round64 (3 # 10)))
                  (round64 (12 # 100))) in
  (0 <= fst (Rounded.store_energy round64 s 1000) <= 1000)%Q /\
  (fst (Rounded.store_energy round64 s 1000) == 607985949695017 # 562949953421312)%Q.
Proof.
  intros s. split.
  - refine (proj1 (moved_amount_bounds round64 s 1000 round64_is_rounding _ _)).
    + split; vm_compute; discriminate.
    + vm_compute; discriminate.
  - vm_compute. reflexivity.
Defined.

(** X11: a negative request is passed through unclamped: in a state within
    bounds [store_energy] with a negative amount returns that amount and
    adds it to the charge, and [use_stored_energy] with a negative amount
    returns it and subtracts it from the charge (float addition and
    subtraction). *)
Theorem negative_amount_passes_through (rnd : Q -> Q) (s : SolarSystem) (a : Q) :
  Rounding rnd ->
  storage_ok s -> (a < 0)%Q ->
  Rounded.store_energy rnd s a
  = (a, mk_SolarSystem (capacity_kw s) (current_generation s)
          (rnd (stored_energy s + a)%Q) (max_storage s)) /\
  Rounded.use_stored_energy rnd s a
  = (a, mk_SolarSystem (capacity_kw s) (current_generation s)
          (rnd (stored_energy s - a)%Q) (max_storage s)).
Proof.
  intros R [H0 H1] Ha.
  unfold Rounded.store_energy, Rounded.use_stored_energy, py_min.
  unfold Rounded.fsub, Rounded.fadd.
  assert (Hav : (0 <= rnd (max_storage s - stored_energy s))%Q)
    by (apply rnd_nonneg; [exact R | lra]).
  replace (Qlt_bool (rnd (max_storage s - stored_energy s)%Q) a) with false
    by (symmetry; apply Qlt_bool_false_iff; lra).
  replace (Qlt_bool (stored_energy s) a) with false
    by (symmetry; apply Qlt_bool_false_iff; lra).
  split; reflexivity.
Qed.

Lemma negative_amount_passes_through_witness :
  fst (Rounded.store_energy round64 (Rounded.SolarSystem_init round64 1) (-3)) = (-3)%Q /\
  (stored_energy
     (snd (Rounded.use_stored_energy round64 (Rounded.SolarSystem_init round64 1) (-5)))
   == 5)%Q.
Proof.
  destruct (negative_amount_passes_through round64
              (Rounded.SolarSystem_init round64 1) (-3)) as [H _].
  - exact round64_is_rounding.
  - split; vm_compute; discriminate.
  - reflexivity.
  - split.
    + rewrite H. reflexivity.
    + vm_compute. reflexivity.
Defined.

(** X12: emptying is exact.  Using at least the charge leaves a charge of
    exactly 0, after which a further non-negative use moves nothing and
    leaves the charge at 0. *)
Theorem use_empties_exactly (rnd : Q -> Q) (s : SolarSystem) (a b : Q) :
  Rounding rnd ->
  (stored_energy s <= a)%Q -> (0 <= b)%Q ->
  let empty := snd (Rounded.use_stored_energy rnd s a) in
  (stored_energy empty == 0)%Q /\
  (fst (Rounded.use_stored_energy rnd empty b) == 0)%Q /\
  (stored_energy (snd (Rounded.use_stored_energy rnd empty b)) == 0)%Q.
Proof.
  intros R Ha Hb. cbv zeta.
  assert (Hempty : (stored_energy (snd (Rounded.use_stored_energy rnd s a)) == 0)%Q).
  { unfold Rounded.use_stored_energy. cbn [snd stored_energy]. unfold Rounded.fsub.
    apply Qeq_trans with (rnd 0%Q); [|apply rnd_0]. apply rnd_proper.
    destruct (py_min_spec a (stored_energy s)) as (Hl & Hr & [E | E]); rewrite E in *; lra. }
  set (empty := snd (Rounded.use_stored_energy rnd s a)) in *.
  assert (Hmoved : (fst (Rounded.use_stored_energy rnd empty b) == 0)%Q).
  { unfold Rounded.use_stored_energy. cbn [fst].
    destruct (py_min_spec b (stored_energy empty)) as (Hl & Hr & [E | E]);
      rewrite E in *; lra. }
  split; [exact Hempty|]. split; [exact Hmoved|].
  unfold Rounded.use_stored_energy in *. cbn [fst snd stored_energy] in *.
  unfold Rounded.fsub.
  apply Qeq_trans with (rnd 0%Q); [|apply rnd_0]. apply rnd_proper. lra.
Qed.

Lemma use_empties_exactly_witness :
  (stored_energy
     (snd (Rounded.use_stored_energy round64
             (snd (Rounded.store_energy round64
                     (Rounded.SolarSystem_init round64 (round64 (3 # 10)))
                     (round64 (12 # 100))))
             9))
   == 0)%Q.
Proof.
  refine (proj1 (use_empties_exactly round64
                   (snd (Rounded.store_energy round64
                           (Rounded.SolarSystem_init round64 (round64 (3 # 10)))
                           (round64 (12 # 100))))
                   9 0 round64_is_rounding _ _)).
  - vm_compute; discriminate.
  - vm_compute; discriminate.
Defined.

(** X13: storing and then withdrawing what was stored does not restore the
    charge, in binary64: on a fresh [SolarSystem(1.0)] holding 0.1,
    [store_energy(0.2)] returns 0.2, [use_stored_energy(0.2)] returns 0.2
    and the charge left is 0.10000000000000003. *)
Theorem store_then_use_drifts :
  let tenth := snd (Rounded.store_energy round64
                      (Rounded.SolarSystem_init round64 1) (round64 (1 # 10))) in
  let stored := Rounded.store_energy round64 tenth (round64 (2 # 10)) in
  let used := Rounded.use_stored_energy round64 (snd stored) (fst stored) in
  (stored_energy tenth == round64 (1 # 10))%Q /\
  (fst stored == round64 (2 # 10))%Q /\
  (fst used == round64 (2 # 10))%Q /\
  (stored_energy tenth < stored_energy (snd used))%Q /\
  (stored_energy (snd used) == 1801439850948199 # 18014398509481984)%Q.
Proof.
  cbv zeta. repeat split; vm_compute; reflexivity.
Qed.

(** ** Appliance registry *)

Lemma dict_get_set_eq {V : Type} (k : string) (v : V) (d : list (string * V)) :
  dict_get k (dict_set k v d) = Some v.
Proof.
  induction d as [|[k' v'] d IH]; cbn [dict_set dict_get].
  - rewrite String.eqb_refl. reflexivity.
  - destruct (String.eqb k k') eqn:E; cbn [dict_get]; rewrite E; [reflexivity | exact IH].
Qed.

Lemma dict_get_set_ne {V : Type} (k k0 : string) (v : V) (d : list (string * V)) :
  k0 <> k -> dict_get k0 (dict_set k v d) = dict_get k0 d.
Proof.
  intros Hne. induction d as [|[k' v'] d IH]; cbn [dict_set dict_get].
  - apply String.eqb_neq in Hne. rewrite Hne. reflexivity.
  - destruct (String.eqb k k') eqn:E; cbn [dict_get].
    + apply String.eqb_eq in E. subst k'.
      apply String.eqb_neq in Hne. rewrite Hne. reflexivity.
    + destruct (String.eqb k0 k'); [reflexivity | exact IH].
Qed.

Lemma dict_get_None_keys {V : Type} (k : string) (d : list (string * V)) :
  dict_get k d = None <-> ~ In k (map fst d).
Proof.
  induction d as [|[k' v'] d IH]; cbn [dict_get map fst In].
  - tauto.
  - destruct (String.eqb k k') eqn:E.
    + apply String.eqb_eq in E. split; [discriminate | intros H; exfalso; auto].
    + apply String.eqb_neq in E. rewrite IH. split.
      * intros H [H' | H']; [congruence | tauto].
      * tauto.
Qed.

(** X14: [add_appliance] then lookup.  The registered name maps to the new
    power draw and flexibility flag with an empty list of runs, replacing
    any earlier entry of that name, and every other name maps to what it
    mapped to before. *)
Theorem add_appliance_lookup (self : EnergyOptimizer) (name other : string)
    (power : Q) (flexible : bool) :
  let self' := add_appliance self name power flexible in
  dict_get name (appliance_schedule self') = Some (mk_appliance power flexible []) /\
  (other <> name ->
   dict_get other (appliance_schedule self') = dict_get other (appliance_schedule self)) /\
  solar_system self' = solar_system self /\
  tariff_schedule self' = tariff_schedule self.
Proof.
  cbn. repeat split.
  - apply dict_get_set_eq.
  - apply dict_get_set_ne.
Qed.

Lemma add_appliance_lookup_witness :
  dict_get "Pool Pump" (appliance_schedule (add_appliance one_pump "Dishwasher" 2 false))
  = dict_get "Pool Pump" (appliance_schedule one_pump).
Proof.
  refine (proj1 (proj2 (add_appliance_lookup one_pump "Dishwasher" "Pool Pump" 2 false)) _).
  discriminate.
Defined.

Lemma dict_set_existing_keys {V : Type} (k : string) (v : V) (d : list (string * V)) :
  In k (map fst d) -> map fst (dict_set k v d) = map fst d.
Proof.
  induction d as [|[k' v'] d IH]; cbn [dict_set map fst In]; [tauto|].
  destruct (String.eqb k k') eqn:E; cbn [map fst]; [reflexivity|].
  apply String.eqb_neq in E. intros [H | H]; [congruence|].
  rewrite (IH H). reflexivity.
Qed.

Lemma dict_set_new_key {V : Type} (k : string) (v : V) (d : list (string * V)) :
  ~ In k (map fst d) -> dict_set k v d = d ++ [(k, v)].
Proof.
  induction d as [|[k' v'] d IH]; cbn [dict_set map fst In app]; [reflexivity|].
  intros H. destruct (String.eqb k k') eqn:E.
  - apply String.eqb_eq in E. exfalso. auto.
  - rewrite IH by tauto. reflexivity.
Qed.

(** X15: [add_appliance] and the iteration order.  Registering a name that
    is already present keeps every name at its position (only the details
    of that name change); registering a new name appends it after all the
    others. *)
Theorem add_appliance_order (self : EnergyOptimizer) (name : string)
    (power : Q) (flexible : bool) :
  let names (o : EnergyOptimizer) := map fst (appliance_schedule o) in
  let self' := add_appliance self name power flexible in
  (In name (names self) -> names self' = names self) /\
  (~ In name (names self) ->
   appliance_schedule self'
   = appliance_schedule self ++ [(name, mk_appliance power flexible [])]).
Proof.
  cbn. split.
  - apply dict_set_existing_keys.
  - apply dict_set_new_key.
Qed.

Lemma add_appliance_order_witness :
  map fst (appliance_schedule (add_appliance one_pump "Pool Pump" 3 false))
  = map fst (appliance_schedule one_pump).
Proof.
  refine (proj1 (add_appliance_order one_pump "Pool Pump" 3 false) _).
  cbn. left. reflexivity.
Defined.

(** ** What a run of the scheduler touches *)

Lemma bind_Ok_inv {A B : Type} (r : result A) (k : A -> result B) (b : B) :
  (r ≫= k) = Ok b -> exists a, r = Ok a /\ k a = Ok b.
Proof.
  destruct r as [a | e]; cbn; [eauto | discriminate].
Qed.

Lemma dt_replace_hour_inv (ct slot : datetime) (h : Z) :
  dt_replace_hour ct h = Ok slot -> dt_hour slot = h /\ 0 <= h <= 23.
Proof.
  unfold dt_replace_hour.
  destruct (Z.leb_spec 0 h), (Z.leb_spec h 23); cbn; try discriminate.
  intros [= <-]. cbn. lia.
Qed.

Lemma optimize_hour_inv (ts : TariffSchedule)
    (appliances : list (string * ApplianceDetails)) (ct : datetime)
    (st st' : LoopState) (hour : Z) :
  optimize_hour ts appliances ct st hour = Ok st' ->
  let w := ls_world st in
  let s := ls_solar st in
  0 <= hour <= 23 /\
  ls_world st'
  = mk_World (wall_clock w) (S (now_calls w)) (uniform_stream w)
      (uniform_calls w + (if is_daylight hour then 1 else 0)) /\
  ls_solar st'
  = mk_SolarSystem (capacity_kw s) (gen_value (capacity_kw s) hour w)
      (stored_energy s) (max_storage s).
Proof.
  intros Hrun w s. unfold optimize_hour in Hrun.
  apply bind_Ok_inv in Hrun as (slot & Hslot & Hrun).
  apply dt_replace_hour_inv in Hslot as [Hhour Hrange].
  apply bind_Ok_inv in Hrun as ([r w1] & Hrate & Hrun).
  rewrite update_generation_eq, Hhour in Hrun.
  apply bind_Ok_inv in Hrun as (schedule1 & _ & Hrun).
  injection Hrun as <-. cbn [ls_world ls_solar].
  unfold get_current_rate, datetime_now in Hrate.
  apply bind_Ok_inv in Hrate as (r0 & _ & Hrate). injection Hrate as _ <-.
  fold w s. split; [exact Hrange|]. split.
  - unfold random_uniform. destruct (is_daylight hour); cbn; f_equal; lia.
  - reflexivity.
Qed.

Lemma hour_loop_inv (ts : TariffSchedule)
    (appliances : list (string * ApplianceDetails)) (ct : datetime)
    (st0 st : LoopState) (n : nat) :
  for_each (optimize_hour ts appliances ct) (py_range (Z.of_nat n)) st0 = Ok st ->
  let w0 := ls_world st0 in
  let s0 := ls_solar st0 in
  (n <= 24)%nat /\
  ls_world st
  = mk_World (wall_clock w0) (now_calls w0 + n) (uniform_stream w0)
      (uniform_calls w0 + draws_before (Z.of_nat n)) /\
  capacity_kw (ls_solar st) = capacity_kw s0 /\
  stored_energy (ls_solar st) = stored_energy s0 /\
  max_storage (ls_solar st) = max_storage s0 /\
  (forall m, n = S m -> is_daylight (Z.of_nat m) = false ->
             current_generation (ls_solar st) = 0%Q).
Proof.
  revert st. induction n as [|n IH]; intros st Hrun w0 s0.
  - cbn in Hrun. injection Hrun as <-. subst w0 s0.
    split; [lia|]. split.
    + change (draws_before (Z.of_nat 0)) with 0%nat. rewrite !Nat.add_0_r.
      destruct (ls_world st0). reflexivity.
    + repeat split. discriminate.
  - rewrite py_range_succ, for_each_app in Hrun.
    apply bind_Ok_inv in Hrun as (st1 & Hrun1 & Hstep).
    cbn [for_each] in Hstep.
    apply bind_Ok_inv in Hstep as (st2 & Hstep & Hret). injection Hret as <-.
    destruct (IH st1 Hrun1) as (Hn & Hw & Hc & Hs & Hm & _).
    apply optimize_hour_inv in Hstep as (Hrange & Hw2 & Hs2).
    subst w0 s0.
    rewrite Hw2, Hs2, Hw. cbn [capacity_kw stored_energy max_storage
                                current_generation wall_clock now_calls
                                uniform_stream uniform_calls].
    split; [lia|]. split.
    + rewrite draws_before_succ. f_equal; lia.
    + repeat split; try assumption.
      intros m [= <-] Hdark. unfold gen_value. rewrite Hdark. reflexivity.
Qed.

(** X16: a successful run of [optimize_schedule] changes nothing but the
    last generation reading: the registry, the tariff schedule, the
    capacity, the stored energy and the storage limit are as before; and
    when the last hour of the window is not a daylight hour (as for the
    default window of 24) [current_generation] is left at 0. *)
Theorem optimize_schedule_frame (self self' : EnergyOptimizer) (window : Z)
    (w w' : World) (sched : gmap Z (list string)) :
  optimize_schedule self window w = Ok (sched, self', w') ->
  appliance_schedule self' = appliance_schedule self /\
  tariff_schedule self' = tariff_schedule self /\
  capacity_kw (solar_system self') = capacity_kw (solar_system self) /\
  stored_energy (solar_system self') = stored_energy (solar_system self) /\
  max_storage (solar_system self') = max_storage (solar_system self) /\
  (1 <= window -> is_daylight (window - 1) = false ->
   current_generation (solar_system self') = 0%Q).
Proof.
  unfold optimize_schedule. intros Hrun.
  destruct (datetime_now w) as [ct w0].
  apply bind_Ok_inv in Hrun as (st & Hloop & Hret).
  injection Hret as <- <- <-. cbn [appliance_schedule tariff_schedule solar_system].
  assert (Erange : py_range window = py_range (Z.of_nat (Z.to_nat window))).
  { unfold py_range. rewrite Nat2Z.id. reflexivity. }
  rewrite Erange in Hloop.
  apply hour_loop_inv in Hloop as (_ & _ & Hc & Hs & Hm & Hg).
  cbn [ls_solar] in *. repeat split; try assumption.
  intros Hwin Hdark. apply (Hg (Z.to_nat (window - 1))); [lia|].
  rewrite Z2Nat.id by lia. exact Hdark.
Qed.

Lemma optimize_schedule_frame_witness :
  match optimize_schedule one_pump 24 (frozen_world 12 0 (9 # 10)) with
  | Ok (_, self', _) =>
      stored_energy (solar_system self') = stored_energy (solar_system one_pump) /\
      current_generation (solar_system self') = 0%Q
  | Raise _ => False
  end.
Proof.
  destruct (optimize_schedule one_pump 24 (frozen_world 12 0 (9 # 10)))
    as [[[sched self'] w'] | e] eqn:Hrun.
  - destruct (optimize_schedule_frame _ _ _ _ _ _ Hrun) as (_ & _ & _ & Hs & _ & Hg).
    split; [exact Hs|]. apply Hg; [lia | reflexivity].
  - vm_compute in Hrun. discriminate Hrun.
Defined.

(** X17: a successful run over a window of [n >= 0] hours reads the clock
    exactly [n + 1] times and draws from the random source exactly once
    per daylight hour of the window (13 times for the default window of
    24), and the window is at most 24. *)
Theorem optimize_schedule_oracle_use (self self' : EnergyOptimizer) (window : Z)
    (w w' : World) (sched : gmap Z (list string)) :
  optimize_schedule self window w = Ok (sched, self', w') ->
  window <= 24 /\
  w' = mk_World (wall_clock w) (S (now_calls w) + Z.to_nat window)
         (uniform_stream w) (uniform_calls w + draws_before window) /\
  draws_before 24 = 13%nat.
Proof.
  unfold optimize_schedule, datetime_now. intros Hrun.
  apply bind_Ok_inv in Hrun as (st & Hloop & Hret).
  injection Hret as <- <- <-.
  assert (Erange : py_range window = py_range (Z.of_nat (Z.to_nat window))).
  { unfold py_range. rewrite Nat2Z.id. reflexivity. }
  assert (Edraws : draws_before window = draws_before (Z.of_nat (Z.to_nat window))).
  { unfold draws_before. rewrite Erange. reflexivity. }
  rewrite Erange in Hloop.
  apply hour_loop_inv in Hloop as (Hn & Hw & _).
  cbn [ls_world wall_clock now_calls uniform_stream uniform_calls] in Hw.
  split; [lia|]. split; [|reflexivity].
  rewrite Hw, Edraws. reflexivity.
Qed.

Lemma optimize_schedule_oracle_use_witness :
  match optimize_schedule one_pump 24 (frozen_world 12 0 (9 # 10)) with
  | Ok (_, _, w') => now_calls w' = 25%nat /\ uniform_calls w' = 13%nat
  | Raise _ => False
  end.
Proof.
  destruct (optimize_schedule one_pump 24 (frozen_world 12 0 (9 # 10)))
    as [[[sched self'] w'] | e] eqn:Hrun.
  - destruct (optimize_schedule_oracle_use _ _ _ _ _ _ Hrun) as (_ & -> & _).
    split; reflexivity.
  - vm_compute in Hrun. discriminate Hrun.
Defined.

(** ** Shape of the returned schedule *)

Lemma optimize_schedule_entries (self self' : EnergyOptimizer)
    (off : PeriodDetails) (window : Z) (w w' : World)
    (sched : gmap Z (list string)) :
  dict_get "off_peak" (periods (tariff_schedule self)) = Some off ->
  optimize_schedule self window w = Ok (sched, self', w') ->
  window <= 24 /\
  forall h : Z,
    sched !! h
    = if decide (0 <= h < window)
      then entry_at (tariff_schedule self) off (appliance_schedule self)
             (capacity_kw (solar_system self)) (snd (datetime_now w)) h
      else None.
Proof.
  intros Hoff Hrun.
  assert (Hwin : window <= 24).
  { destruct (Z_le_gt_dec window 24) as [Hle | Hgt]; [exact Hle|].
    rewrite (optimize_schedule_raises self off window w Hoff) in Hrun by lia.
    discriminate. }
  split; [exact Hwin|].
  destruct (optimize_schedule_ok self off window w Hoff Hwin)
    as (sched0 & self0 & w0 & Hrun0 & Hsched).
  rewrite Hrun in Hrun0. injection Hrun0 as <- <- <-. exact Hsched.
Qed.

Lemma entry_at_names (ts : TariffSchedule) (off : PeriodDetails)
    (appliances : list (string * ApplianceDetails)) (c : Q) (w0 : World) (h : Z) :
  default [] (entry_at ts off appliances c w0 h) = names_at ts off appliances c w0 h.
Proof.
  unfold entry_at. destruct (names_at ts off appliances c w0 h); reflexivity.
Qed.

Lemma entry_at_Some (ts : TariffSchedule) (off : PeriodDetails)
    (appliances : list (string * ApplianceDetails)) (c : Q) (w0 : World) (h : Z)
    (l : list string) :
  entry_at ts off appliances c w0 h = Some l ->
  l = names_at ts off appliances c w0 h /\ l <> [].
Proof.
  unfold entry_at. destruct (names_at ts off appliances c w0 h); [discriminate|].
  intros [= <-]. split; [reflexivity | discriminate].
Qed.

Lemma selected_names_sublist (off : PeriodDetails) (g r : Q)
    (appliances : list (string * ApplianceDetails)) :
  sublist (map fst (List.filter (selected off g r) appliances))
    (flexible_names appliances).
Proof.
  unfold flexible_names.
  induction appliances as [|[name d] items IH]; cbn [List.filter map fst snd].
  - constructor.
  - unfold selected at 1. cbn [snd].
    destruct (flexible_timing d); cbn [andb map fst]; [|exact IH].
    destruct (Qlt_bool (power_usage d) g || Qeq_bool r (rate off)); cbn [map fst].
    + apply sublist_skip. exact IH.
    + apply sublist_cons. exact IH.
Qed.

Lemma flexible_names_sublist (appliances : list (string * ApplianceDetails)) :
  sublist (flexible_names appliances) (map fst appliances).
Proof.
  unfold flexible_names.
  induction appliances as [|[name d] items IH]; cbn [List.filter map fst snd].
  - constructor.
  - destruct (flexible_timing d); cbn [map fst].
    + apply sublist_skip. exact IH.
    + apply sublist_cons. exact IH.
Qed.

(** X18: shape of a returned schedule.  A key of the schedule is an hour
    of the window, its list is not empty (an hour with nothing to run has
    no key), and the list is a subsequence of the flexible appliances in
    registry order; with distinct registry names no appliance is listed
    twice in an hour. *)
Theorem schedule_shape (self self' : EnergyOptimizer) (window : Z)
    (w w' : World) (sched : gmap Z (list string)) (h : Z) (l : list string) :
  is_Some (dict_get "off_peak" (periods (tariff_schedule self))) ->
  optimize_schedule self window w = Ok (sched, self', w') ->
  sched !! h = Some l ->
  0 <= h < window /\ l <> [] /\
  sublist l (flexible_names (appliance_schedule self)) /\
  (NoDup (map fst (appliance_schedule self)) -> NoDup l).
Proof.
  intros [off Hoff] Hrun Hl.
  destruct (optimize_schedule_entries _ _ _ _ _ _ _ Hoff Hrun) as [_ Hsched].
  rewrite Hsched in Hl.
  destruct (decide (0 <= h < window)) as [Hh|]; [|discriminate].
  apply entry_at_Some in Hl as [-> Hne].
  assert (Hsub : sublist (names_at (tariff_schedule self) off (appliance_schedule self)
                            (capacity_kw (solar_system self)) (snd (datetime_now w)) h)
                   (flexible_names (appliance_schedule self)))
    by apply selected_names_sublist.
  split; [exact Hh|]. split; [exact Hne|]. split; [exact Hsub|].
  intros Hnd. refine (sublist_NoDup _ _ _ Hsub).
  exact (sublist_NoDup _ _ Hnd (flexible_names_sublist _)).
Qed.

Lemma schedule_shape_witness :
  match optimize_schedule one_pump 24 (frozen_world 23 0 (9 # 10)) with
  | Ok (sched, _, _) =>
      match sched !! 12 with
      | Some l => l <> [] /\ NoDup l
      | None => False
      end
  | Raise _ => False
  end.
Proof.
  destruct (optimize_schedule one_pump 24 (frozen_world 23 0 (9 # 10)))
    as [[[sched self'] w'] | e] eqn:Hrun.
  - destruct (sched !! 12) as [l|] eqn:Hl.
    + destruct (schedule_shape one_pump self' 24 (frozen_world 23 0 (9 # 10)) w'
                  sched 12 l) as (_ & Hne & _ & Hnd).
      * eexists; reflexivity.
      * exact Hrun.
      * exact Hl.
      * split; [exact Hne|]. apply Hnd. cbn. apply NoDup_singleton.
    + vm_compute in Hrun. injection Hrun as <- _ _. vm_compute in Hl. discriminate Hl.
  - vm_compute in Hrun. discriminate Hrun.
Defined.

(** ** Consequences of reading the rate from the clock *)

Lemma default_rate_of (t : time) :
  valid_time t ->
  rate_of TariffSchedule_init default_off_peak t = default_rate_of_hour (t_hour t).
Proof.
  intros Ht.
  pose proof (rate_at_ok TariffSchedule_init default_off_peak eq_refl t) as H1.
  rewrite (default_rate_at_hour t Ht) in H1. congruence.
Qed.

Lemma filter_all_false {A : Type} (f : A -> bool) (l : list A) :
  (forall x, In x l -> f x = false) -> List.filter f l = [].
Proof.
  induction l as [|x l IH]; intros H; cbn [List.filter]; [reflexivity|].
  rewrite (H x) by now left. apply IH. intros y Hy. apply H. now right.
Qed.

(** X19: called while the clock is in the off-peak period (20:00 to
    07:00), [optimize_schedule] with the default tariff lists every
    flexible appliance, in registry order, in every hour of the window,
    peak hours included, whatever the generation is. *)
Theorem called_off_peak_schedules_everything (self : EnergyOptimizer)
    (window : Z) (w : World) :
  tariff_schedule self = TariffSchedule_init ->
  (forall k, valid_time (dt_time (wall_clock w k)) /\
             (20 <= dt_hour (wall_clock w k) \/ dt_hour (wall_clock w k) < 7)) ->
  window <= 24 ->
  exists sched self' w',
    optimize_schedule self window w = Ok (sched, self', w') /\
    forall h, 0 <= h < window ->
      default [] (sched !! h) = flexible_names (appliance_schedule self).
Proof.
  intros Hts Hclock Hwin.
  assert (Hoff : dict_get "off_peak" (periods (tariff_schedule self))
                 = Some default_off_peak) by (rewrite Hts; reflexivity).
  destruct (optimize_schedule_ok self _ window w Hoff Hwin)
    as (sched & self' & w' & Hrun & Hsched).
  exists sched, self', w'. split; [exact Hrun|].
  intros h Hh. rewrite Hsched.
  destruct (decide (0 <= h < window)); [|lia].
  rewrite entry_at_names, Hts. unfold names_at, flexible_names.
  cbn [loop_world datetime_now snd wall_clock now_calls].
  f_equal. apply List.filter_ext. intros [name d].
  unfold selected. cbn [snd].
  destruct (Hclock (S (now_calls w) + Z.to_nat h)%nat) as [Hvalid Hhour].
  rewrite (default_rate_of _ Hvalid). cbn [dt_time t_hour].
  assert (E : default_rate_of_hour (dt_hour (wall_clock w (S (now_calls w) + Z.to_nat h)))
              = (15 # 100)%Q).
  { unfold default_rate_of_hour. split_comparisons; cbn; try lia; reflexivity. }
  rewrite E. change (Qeq_bool (15 # 100) (rate default_off_peak)) with true.
  rewrite orb_true_r, andb_true_r. reflexivity.
Qed.

Lemma called_off_peak_schedules_everything_witness :
  exists sched self' w',
    optimize_schedule one_pump 24 (frozen_world 23 0 (9 # 10)) = Ok (sched, self', w') /\
    default [] (sched !! 15) = ["Pool Pump"%string].
Proof.
  destruct (called_off_peak_schedules_everything one_pump 24
              (frozen_world 23 0 (9 # 10)))
    as (sched & self' & w' & Hrun & Hall).
  - reflexivity.
  - intros k. unfold valid_time. cbn. lia.
  - lia.
  - exists sched, self', w'. split; [exact Hrun|]. apply Hall. lia.
Defined.

(** X20: called while the clock is in the shoulder or peak period (07:00
    to 20:00), [optimize_schedule] with the default tariff and
    non-negative power draws schedules nothing at hours 0 to 6 and 18 to
    23: the off-peak night hours stay empty. *)
Theorem called_in_daytime_leaves_night_empty (self self' : EnergyOptimizer)
    (window : Z) (w w' : World) (sched : gmap Z (list string)) (h : Z) :
  tariff_schedule self = TariffSchedule_init ->
  (forall k, valid_time (dt_time (wall_clock w k)) /\
             7 <= dt_hour (wall_clock w k) < 20) ->
  (forall name d, In (name, d) (appliance_schedule self) -> (0 <= power_usage d)%Q) ->
  optimize_schedule self window w = Ok (sched, self', w') ->
  h <= 6 \/ 18 <= h ->
  sched !! h = None.
Proof.
  intros Hts Hclock Hpower Hrun Hh.
  assert (Hoff : dict_get "off_peak" (periods (tariff_schedule self))
                 = Some default_off_peak) by (rewrite Hts; reflexivity).
  destruct (optimize_schedule_entries _ _ _ _ _ _ _ Hoff Hrun) as [_ Hsched].
  rewrite Hsched. destruct (decide (0 <= h < window)); [|reflexivity].
  unfold entry_at, names_at. rewrite Hts.
  cbn [loop_world datetime_now snd wall_clock now_calls].
  rewrite filter_all_false; [reflexivity|].
  intros [name d] Hin. unfold selected. cbn [snd].
  destruct (Hclock (S (now_calls w) + Z.to_nat h)%nat) as [Hvalid Hhour].
  rewrite (default_rate_of _ Hvalid). cbn [dt_time t_hour].
  replace (Qeq_bool _ (rate default_off_peak)) with false.
  - rewrite orb_false_r. apply andb_false_iff. right.
    apply Qlt_bool_false_iff.
    apply Qle_trans with 0%Q; [|exact (Hpower name d Hin)].
    unfold gen_value. destruct (is_daylight h) eqn:E; [|lra].
    apply is_daylight_iff in E.
    rewrite (daylight_factor_boundary h) by lia. nra.
  - unfold default_rate_of_hour. split_comparisons; cbn; try lia; reflexivity.
Qed.

Lemma called_in_daytime_leaves_night_empty_witness :
  match optimize_schedule one_pump 24 (frozen_world 12 0 (9 # 10)) with
  | Ok (sched, _, _) => sched !! 2 = None
  | Raise _ => False
  end.
Proof.
  destruct (optimize_schedule one_pump 24 (frozen_world 12 0 (9 # 10)))
    as [[[sched self'] w'] | e] eqn:Hrun.
  - apply (called_in_daytime_leaves_night_empty one_pump self' 24
             (frozen_world 12 0 (9 # 10)) w' sched 2).
    + reflexivity.
    + intros k. unfold valid_time. cbn. lia.
    + intros name d [[= <- <-] | []]. cbn. lra.
    + exact Hrun.
    + lia.
  - vm_compute in Hrun. discriminate Hrun.
Defined.

(** X21: within one hour a flexible appliance that draws no more than a
    scheduled one is scheduled too: the decision is monotone in the power
    draw. *)
Theorem scheduling_monotone_in_power (self self' : EnergyOptimizer)
    (window : Z) (w w' : World) (sched : gmap Z (list string)) (h : Z)
    (a b : string) (da db : ApplianceDetails) :
  is_Some (dict_get "off_peak" (periods (tariff_schedule self))) ->
  NoDup (map fst (appliance_schedule self)) ->
  optimize_schedule self window w = Ok (sched, self', w') ->
  dict_get a (appliance_schedule self) = Some da ->
  dict_get b (appliance_schedule self) = Some db ->
  flexible_timing da = true ->
  (power_usage da <= power_usage db)%Q ->
  In b (default [] (sched !! h)) ->
  In a (default [] (sched !! h)).
Proof.
  intros [off Hoff] Hnd Hrun Ha Hb Hflex Hle.
  destruct (optimize_schedule_entries _ _ _ _ _ _ _ Hoff Hrun) as [_ Hsched].
  rewrite Hsched. destruct (decide (0 <= h < window)); [|intros []].
  rewrite !in_entry_at, !in_names_at.
  intros (db' & Hinb & Hsel).
  apply (dict_get_In _ _ _ Hnd) in Hinb.
  assert (db' = db) by congruence. subst db'.
  exists da. split; [apply (dict_get_In _ _ _ Hnd); exact Ha|].
  unfold selected in *. cbn [snd] in *.
  apply andb_true_iff in Hsel as [_ Hcond].
  rewrite Hflex. cbn [andb].
  apply orb_true_iff in Hcond as [Hgen | Hrate].
  - apply orb_true_iff. left. apply Qlt_bool_iff in Hgen. apply Qlt_bool_iff. lra.
  - apply orb_true_iff. right. exact Hrate.
Qed.

Lemma scheduling_monotone_in_power_witness :
  match optimize_schedule pump_and_dishwasher 24 (frozen_world 23 0 (9 # 10)) with
  | Ok (sched, _, _) => In "Pool Pump"%string (default [] (sched !! 3))
  | Raise _ => False
  end.
Proof.
  destruct (optimize_schedule pump_and_dishwasher 24 (frozen_world 23 0 (9 # 10)))
    as [[[sched self'] w'] | e] eqn:Hrun.
  - apply (scheduling_monotone_in_power pump_and_dishwasher self' 24
             (frozen_world 23 0 (9 # 10)) w' sched 3
             "Pool Pump" "Dishwasher"
             (mk_appliance 1 true []) (mk_appliance (15 # 10) true [])).
    + eexists; reflexivity.
    + cbn. apply NoDup_cons. split; [|apply NoDup_singleton].
      intros H. apply list_elem_of_In in H as [H | []]. discriminate H.
    + exact Hrun.
    + reflexivity.
    + reflexivity.
    + reflexivity.
    + cbn; lra.
    + vm_compute in Hrun. injection Hrun as <- _ _. vm_compute. right. left. reflexivity.
  - vm_compute in Hrun. discriminate Hrun.
Defined.

(** ** A tariff schedule without an off-peak entry *)

Lemma consider_appliance_error (ts : TariffSchedule) (hour : Z) (g r : Q)
    (schedule : gmap Z (list string)) (item : string * ApplianceDetails) (e : exn) :
  consider_appliance ts hour g r schedule item = Raise e -> e = KeyError.
Proof.
  destruct item as [name d]. unfold consider_appliance, should_run, dict_index.
  destruct (flexible_timing d); [|discriminate].
  destruct (Qlt_bool (power_usage d) g); cbn.
  - destruct (schedule !! hour) eqn:E.
    + rewrite E. discriminate.
    + rewrite lookup_insert_eq. discriminate.
  - destruct (dict_get "off_peak" (periods ts)); cbn.
    + destruct (Qeq_bool r (rate p)); [|discriminate].
      destruct (schedule !! hour) eqn:E.
      * rewrite E. discriminate.
      * rewrite lookup_insert_eq. discriminate.
    + intros [= <-]. reflexivity.
Qed.

Lemma appliance_loop_without_off_peak (ts : TariffSchedule) (hour : Z) (g r : Q)
    (appliances : list (string * ApplianceDetails))
    (schedule : gmap Z (list string)) :
  dict_get "off_peak" (periods ts) = None ->
  (exists name d, In (name, d) appliances /\ flexible_timing d = true /\
                  (g <= power_usage d)%Q) ->
  for_each (consider_appliance ts hour g r) appliances schedule = Raise KeyError.
Proof.
  intros Hoff. revert schedule.
  induction appliances as [|[name d] items IH]; intros schedule (n0 & d0 & Hin & Hflex & Hle).
  - destruct Hin.
  - cbn [for_each].
    destruct (consider_appliance ts hour g r schedule (name, d)) as [s1 | e] eqn:Estep.
    + rewrite bind_Ok. destruct Hin as [[= -> ->] | Hin].
      * exfalso. unfold consider_appliance, should_run, dict_index in Estep.
        rewrite Hflex, Hoff in Estep.
        replace (Qlt_bool (power_usage d0) g) with false in Estep
          by (symmetry; apply Qlt_bool_false_iff; exact Hle).
        discriminate Estep.
      * apply IH. exists n0, d0. auto.
    + apply consider_appliance_error in Estep. subst e. reflexivity.
Qed.

(** X22: with no ['off_peak'] entry among the periods, a run over at least
    one hour with a flexible appliance of non-negative power draw in the
    registry raises [KeyError]: hour 0 has no generation, so the off-peak
    rate is looked up (if the rate lookup has not failed already). *)
Theorem optimize_schedule_needs_off_peak (self : EnergyOptimizer) (window : Z)
    (w : World) :
  dict_get "off_peak" (periods (tariff_schedule self)) = None ->
  1 <= window ->
  (exists name d, In (name, d) (appliance_schedule self) /\
                  flexible_timing d = true /\ (0 <= power_usage d)%Q) ->
  optimize_schedule self window w = Raise KeyError.
Proof.
  intros Hoff Hwin Hflex. unfold optimize_schedule.
  destruct (datetime_now w) as [ct w0].
  destruct (py_range_split window 0) as (rest & ->); [lia|].
  change (py_range (Z.of_nat 0) ++ Z.of_nat 0 :: rest) with (0 :: rest).
  cbn [for_each].
  assert (Hstep : optimize_hour (tariff_schedule self) (appliance_schedule self) ct
                    (mk_LoopState w0 (solar_system self) ∅) 0 = Raise KeyError).
  { unfold optimize_hour. cbn [ls_world ls_solar ls_schedule].
    destruct (dt_replace_hour_ok ct 0) as (slot & -> & Hslot); [lia|].
    rewrite bind_Ok.
    destruct (get_current_rate (tariff_schedule self) w0) as [[r w1] | e] eqn:Erate.
    - rewrite bind_Ok, update_generation_eq, Hslot.
      rewrite appliance_loop_without_off_peak; [reflexivity | exact Hoff |].
      destruct Hflex as (name & d & Hin & Hf & Hp).
      exists name, d. split; [exact Hin|]. split; [exact Hf | exact Hp].
    - apply get_current_rate_error in Erate. subst e. reflexivity. }
  rewrite Hstep. reflexivity.
Qed.

Lemma optimize_schedule_needs_off_peak_witness :
  optimize_schedule
    (add_appliance
       (EnergyOptimizer_init (SolarSystem_init 1)
          (mk_TariffSchedule [("all_day"%string,
                               mk_period (time_hm 0 0) (time_hm 23 59) (3 # 10))]))
       "Pool Pump" 1 true)
    24 (frozen_world 12 0 (9 # 10))
  = Raise KeyError.
Proof.
  apply optimize_schedule_needs_off_peak.
  - reflexivity.
  - lia.
  - exists "Pool Pump"%string, (mk_appliance 1 true []).
    split; [left; reflexivity|]. split; [reflexivity | cbn; lra].
Defined.

(** ** Usage log *)

Lemma record_all_histories (m : EnergyMonitor) (entries : list (datetime * Q * Q)) :
  usage_history (record_all m entries)
  = usage_history m ++ map (fun e => mk_usage (fst (fst e)) (snd (fst e))) entries /\
  cost_history (record_all m entries)
  = cost_history m ++ map (fun e => mk_cost (fst (fst e)) (snd e)) entries.
Proof.
  revert m. induction entries as [|e entries IH]; intros m; cbn [record_all fold_left map].
  - rewrite !app_nil_r. split; reflexivity.
  - destruct (IH (record_usage m (fst (fst e)) (snd (fst e)) (snd e))) as [Hu Hc].
    unfold record_all in Hu, Hc. rewrite Hu, Hc. cbn [record_usage usage_history cost_history].
    rewrite <- !app_assoc. split; reflexivity.
Qed.

(** X23: the two logs stay aligned.  After any sequence of [record_usage]
    calls on a fresh monitor, the i-th usage record and the i-th cost record
    carry the timestamp, usage and cost of the i-th call, and both logs are
    as long as the sequence. *)
Theorem logs_stay_aligned (entries : list (datetime * Q * Q)) :
  let m := record_all EnergyMonitor_init entries in
  length (usage_history m) = length entries /\
  length (cost_history m) = length entries /\
  forall (i : nat) (t : datetime) (u c : Q),
    entries !! i = Some (t, u, c) ->
    usage_history m !! i = Some (mk_usage t u) /\
    cost_history m !! i = Some (mk_cost t c).
Proof.
  intros m. subst m.
  destruct (record_all_histories EnergyMonitor_init entries) as [-> ->].
  cbn [EnergyMonitor_init usage_history cost_history app].
  rewrite !length_map.
  split; [reflexivity|]. split; [reflexivity|].
  intros i t u c Hi. rewrite !list_lookup_fmap, Hi. split; reflexivity.
Qed.

Lemma logs_stay_aligned_witness :
  let t := mk_datetime 2024 3 9 8 0 0 0 in
  let m := record_all EnergyMonitor_init [(t, 2, 1); (t, 3, 1 # 2)]%Q in
  usage_history m !! 1%nat = Some (mk_usage t 3) /\
  cost_history m !! 1%nat = Some (mk_cost t (1 # 2)).
Proof.
  intros t m.
  apply (proj2 (proj2 (logs_stay_aligned [(t, 2, 1); (t, 3, 1 # 2)]%Q)) 1%nat).
  reflexivity.
Defined.

Lemma py_slice_from_app {A : Type} (n : nat) (older recent : list A) :
  (0 < n <= length recent)%nat ->
  py_slice_from (- Z.of_nat n) (older ++ recent) = py_slice_from (- Z.of_nat n) recent.
Proof.
  intros Hn. unfold py_slice_from. rewrite length_app.
  replace (- Z.of_nat n <? 0) with true by (symmetry; apply Z.ltb_lt; lia).
  replace (Z.to_nat (Z.max (Z.of_nat (length older + length recent)
                              + - Z.of_nat n) 0))
    with (length older + (length recent - n))%nat by lia.
  replace (Z.to_nat (Z.max (Z.of_nat (length recent) + - Z.of_nat n) 0))
    with (length recent - n)%nat by lia.
  rewrite drop_app_add. reflexivity.
Qed.

(** X24: the summary is a sliding window.  Once 24 or more entries have
    been recorded on top of a log, the summary no longer depends on what
    the log held before. *)
Theorem summary_forgets_older_entries (m m' : EnergyMonitor)
    (entries : list (datetime * Q * Q)) :
  (24 <= length entries)%nat ->
  get_daily_summary (record_all m entries)
  = get_daily_summary (record_all m' entries).
Proof.
  intros Hlen. unfold get_daily_summary.
  destruct (record_all_histories m entries) as [-> ->].
  destruct (record_all_histories m' entries) as [-> ->].
  rewrite !(py_slice_from_app 24) by (rewrite length_map; lia).
  destruct entries as [|e entries]; [cbn in Hlen; lia|].
  destruct (usage_history m) as [|x xs], (usage_history m') as [|y ys];
    reflexivity.
Qed.

Lemma summary_forgets_older_entries_witness :
  let t := mk_datetime 2024 3 9 8 0 0 0 in
  let day := repeat (t, 1%Q, (1 # 4)%Q) 24 in
  get_daily_summary (record_all (record_usage EnergyMonitor_init t 1000 1000) day)
  = get_daily_summary (record_all EnergyMonitor_init day).
Proof.
  intros t day.
  apply (summary_forgets_older_entries
           (record_usage EnergyMonitor_init t 1000 1000) EnergyMonitor_init day).
  cbn. lia.
Defined.




(** ** Replaying the schedule: [main] *)

Lemma py_range_loop {S : Type} (body : S -> Z -> result S) (P : nat -> S -> Prop)
    (n : nat) (s : S) :
  P 0%nat s ->
  (forall i s, (i < n)%nat -> P i s ->
               exists s', body s (Z.of_nat i) = Ok s' /\ P (Datatypes.S i) s') ->
  exists s', for_each body (py_range (Z.of_nat n)) s = Ok s' /\ P n s'.
Proof.
  intros H0 Hstep. induction n as [|n IH].
  - exists s. split; [reflexivity | exact H0].
  - destruct IH as (s1 & Hrun & HP); [intros i s' Hi; apply Hstep; lia|].
    destruct (Hstep n s1) as (s2 & Hbody & HP2); [lia | exact HP|].
    exists s2. rewrite py_range_succ, for_each_app, Hrun, bind_Ok.
    cbn [for_each]. rewrite Hbody, bind_Ok. split; [reflexivity | exact HP2].
Qed.

Lemma scheduled_power_loop (registry : list (string * ApplianceDetails))
    (names : list string) (acc : Q) :
  (forall name, In name names ->
     exists d, dict_get name registry = Some d /\ (0 <= power_usage d)%Q) ->
  exists total,
    for_each (fun acc app =>
                details ← dict_index app registry;
                mret (acc + power_usage details)%Q) names acc = Ok total /\
    (acc <= total)%Q.
Proof.
  revert acc. induction names as [|name names IH]; intros acc Hreg.
  - exists acc. split; [reflexivity | lra].
  - destruct (Hreg name (or_introl eq_refl)) as (d & Hd & Hp).
    destruct (IH (acc + power_usage d)%Q) as (total & Hrun & Hle).
    { intros n Hn. apply Hreg. now right. }
    exists total. cbn [for_each]. cbv beta.
    assert (E : dict_index name registry = Ok d) by (unfold dict_index; rewrite Hd; reflexivity).
    rewrite E, !bind_Ok. split; [exact Hrun | lra].
Qed.

Lemma default_rate_bounds (t : time) :
  (15 # 100 <= rate_of TariffSchedule_init default_off_peak t <= 40 # 100)%Q.
Proof.
  unfold rate_of. cbn [periods TariffSchedule_init first_matching_rate].
  repeat match goal with
         | |- context [period_matches t ?p] => destruct (period_matches t p)
         end; cbn; split; lra.
Qed.

Lemma py_max_zero_bounds (x total : Q) :
  (0 <= total)%Q -> (total - x <= total)%Q ->
  (0 <= py_max 0 (total - x) <= total)%Q.
Proof.
  intros Ht Hx. unfold py_max. destruct (Qlt_bool 0 (total - x)) eqn:E.
  - apply Qlt_bool_iff in E. split; lra.
  - split; lra.
Qed.

Lemma main_hour_ok (registry : list (string * ApplianceDetails))
    (schedule : gmap Z (list string)) (ct : datetime) (w0 : World) (c : Q)
    (st : SimState) (n : nat) :
  (n <= 23)%nat ->
  (forall name, In name (default [] (schedule !! Z.of_nat n)) ->
     exists d, dict_get name registry = Some d /\ (0 <= power_usage d)%Q) ->
  replay_inv w0 c n st ->
  exists st',
    main_hour TariffSchedule_init registry schedule ct st (Z.of_nat n) = Ok st' /\
    replay_inv w0 c (S n) st'.
Proof.
  intros Hn Hreg (Hw & Hc & Hlu & Hlc & Hbound).
  unfold main_hour.
  destruct (dt_replace_hour_ok ct (Z.of_nat n)) as (slot & -> & Hslot); [lia|].
  rewrite bind_Ok, update_generation_eq, Hslot.
  rewrite (get_current_rate_ok TariffSchedule_init default_off_peak eq_refl), bind_Ok.
  destruct (scheduled_power_loop registry (default [] (schedule !! Z.of_nat n)) 0 Hreg)
    as (total & Htotal & Hpos).
  unfold scheduled_power. rewrite Htotal, bind_Ok.
  eexists. split; [reflexivity|].
  unfold replay_inv.
  cbn [sim_world sim_solar sim_monitor record_usage usage_history cost_history
       capacity_kw].
  rewrite !length_app, Hlu, Hlc. cbn [length].
  split; [|split; [exact Hc|split; [lia|split; [lia|]]]].
  - rewrite Hw. unfold datetime_now, random_uniform.
    rewrite draws_before_succ.
    destruct (is_daylight (Z.of_nat n)); cbn; f_equal; lia.
  - intros Hu Hcap. apply Forall2_app; [exact (Hbound Hu Hcap)|].
    constructor; [|constructor].
    cbn [usage cost].
    set (g := gen_value _ _ _).
    set (r := rate_of _ _ _).
    assert (Hg : (0 <= g)%Q).
    { subst g. apply gen_value_nonneg; [rewrite Hc; exact Hcap|].
      rewrite Hw. cbn. apply Hu. }
    assert (Hr : (15 # 100 <= r <= 40 # 100)%Q) by apply default_rate_bounds.
    assert (Hgt : (total - g <= total)%Q) by lra.
    destruct (py_max_zero_bounds g total Hpos Hgt) as [Hm0 Hm1].
    set (m := py_max 0 (total - g)) in *.
    split; [exact Hpos|]. split; nra.
Qed.

(** What a run of [optimize_schedule] over at most 24 hours returns and
    leaves behind, when an off-peak period is configured. *)
Lemma optimize_schedule_effects (self : EnergyOptimizer) (off : PeriodDetails)
    (window : Z) (w : World) :
  dict_get "off_peak" (periods (tariff_schedule self)) = Some off ->
  window <= 24 ->
  exists sched self' w',
    optimize_schedule self window w = Ok (sched, self', w') /\
    (forall h : Z,
       sched !! h
       = if decide (0 <= h < window)
         then entry_at (tariff_schedule self) off (appliance_schedule self)
                (capacity_kw (solar_system self)) (snd (datetime_now w)) h
         else None) /\
    appliance_schedule self' = appliance_schedule self /\
    tariff_schedule self' = tariff_schedule self /\
    capacity_kw (solar_system self') = capacity_kw (solar_system self) /\
    w' = mk_World (wall_clock w) (S (now_calls w) + Z.to_nat window)
           (uniform_stream w) (uniform_calls w + draws_before window).
Proof.
  intros Hoff Hwin.
  destruct (optimize_schedule_ok self off window w Hoff Hwin)
    as (sched & self' & w' & Hrun & Hsched).
  exists sched, self', w'. split; [exact Hrun|]. split; [exact Hsched|].
  unfold optimize_schedule, datetime_now in Hrun.
  apply bind_Ok_inv in Hrun as (st & Hloop & Hret).
  injection Hret as _ <- <-.
  assert (Erange : py_range window = py_range (Z.of_nat (Z.to_nat window))).
  { unfold py_range. rewrite Nat2Z.id. reflexivity. }
  assert (Edraws : draws_before window = draws_before (Z.of_nat (Z.to_nat window))).
  { unfold draws_before. rewrite Erange. reflexivity. }
  rewrite Erange in Hloop.
  apply hour_loop_inv in Hloop as (_ & Hw & Hc & _).
  cbn [ls_world ls_solar wall_clock now_calls uniform_stream uniform_calls] in Hw, Hc.
  cbn [appliance_schedule tariff_schedule solar_system].
  repeat split; [exact Hc|]. rewrite Hw, Edraws. reflexivity.
Qed.

Lemma scheduled_names_registered (ts : TariffSchedule) (off : PeriodDetails)
    (appliances : list (string * ApplianceDetails)) (c : Q) (w0 : World) (h : Z)
    (name : string) :
  NoDup (map fst appliances) ->
  In name (default [] (entry_at ts off appliances c w0 h)) ->
  exists d, dict_get name appliances = Some d /\ In (name, d) appliances.
Proof.
  intros Hnd Hin. apply in_entry_at, in_names_at in Hin as (d & Hin & _).
  exists d. split; [apply dict_get_In; assumption | exact Hin].
Qed.

(** The replay loop of the drivers after a run of the scheduler, for any
    registry with distinct names and non-negative power draws; [ct] is the
    time the replay starts from. *)
Lemma replay_ok (self : EnergyOptimizer) (w : World) :
  tariff_schedule self = TariffSchedule_init ->
  NoDup (map fst (appliance_schedule self)) ->
  (forall name d, In (name, d) (appliance_schedule self) -> (0 <= power_usage d)%Q) ->
  exists sched self' w1,
    optimize_schedule self 24 w = Ok (sched, self', w1) /\
    w1 = mk_World (wall_clock w) (now_calls w + 25) (uniform_stream w)
           (uniform_calls w + 13) /\
    forall ct : datetime,
    exists st,
      for_each (main_hour TariffSchedule_init (appliance_schedule self') sched ct)
        (py_range 24)
        (mk_SimState (snd (datetime_now w1)) (solar_system self') EnergyMonitor_init)
      = Ok st /\
      replay_inv (snd (datetime_now w1)) (capacity_kw (solar_system self)) 24 st.
Proof.
  intros Hts Hnd Hpower.
  assert (Hoff : dict_get "off_peak" (periods (tariff_schedule self))
                 = Some default_off_peak) by (rewrite Hts; reflexivity).
  destruct (optimize_schedule_effects self _ 24 w Hoff) as
    (sched & self' & w1 & Hrun & Hsched & Happs & _ & Hcap & Hw1); [lia|].
  exists sched, self', w1. split; [exact Hrun|]. split.
  { rewrite Hw1. change (draws_before 24) with 13%nat.
    change (Z.to_nat 24) with 24%nat. f_equal; lia. }
  intros ct.
  apply (py_range_loop
           (main_hour TariffSchedule_init (appliance_schedule self') sched ct)
           (replay_inv (snd (datetime_now w1)) (capacity_kw (solar_system self)))
           24).
  - unfold replay_inv.
    cbn [sim_world sim_solar sim_monitor EnergyMonitor_init usage_history
         cost_history length].
    split; [symmetry; apply loop_world_start|].
    split; [exact Hcap|]. split; [reflexivity|]. split; [reflexivity|].
    intros _ _. constructor.
  - intros i st Hi Hinv. apply main_hour_ok; [lia | | exact Hinv].
    intros name Hin. rewrite Hsched in Hin.
    destruct (decide (0 <= Z.of_nat i < 24)); [|destruct Hin].
    rewrite Happs.
    destruct (scheduled_names_registered _ _ _ _ _ _ _ Hnd Hin) as (d & Hd & Hind).
    exists d. split; [exact Hd | exact (Hpower name d Hind)].
Qed.

Lemma py_slice_from_whole {A : Type} (n : nat) (xs : list A) :
  (0 < n)%nat -> (length xs <= n)%nat -> py_slice_from (- Z.of_nat n) xs = xs.
Proof.
  intros Hn Hlen. apply py_slice_from_last; [exact Hn|].
  exists []. split; [reflexivity|]. right. split; [reflexivity | exact Hlen].
Qed.

Lemma Qsum_cost_bound (us : list UsageRecord) (cs : list CostRecord) :
  Forall2 (fun u k => (0 <= usage u)%Q /\ (0 <= cost k <= (40 # 100) * usage u)%Q)
    us cs ->
  (0 <= Qsum (map usage us))%Q /\
  (0 <= Qsum (map cost cs) <= (40 # 100) * Qsum (map usage us))%Q.
Proof.
  induction 1 as [|u k us cs (Hu & Hk0 & Hk1) _ IH]; unfold Qsum; cbn [map foldr].
  - split; [|split]; lra.
  - fold (Qsum (map usage us)) (Qsum (map cost cs)).
    destruct IH as (IHu & IHc0 & IHc1). split; [|split]; lra.
Qed.

Lemma summary_rate_bound (m : EnergyMonitor) :
  (length (usage_history m) <= 24)%nat ->
  (length (cost_history m) <= 24)%nat ->
  Forall2 (fun u k => (0 <= usage u)%Q /\ (0 <= cost k <= (40 # 100) * usage u)%Q)
    (usage_history m) (cost_history m) ->
  let s := get_daily_summary m in
  (0 <= total_usage s)%Q /\
  (0 <= total_cost s <= (40 # 100) * total_usage s)%Q /\
  (0 <= average_rate s <= 40 # 100)%Q.
Proof.
  intros Hlu Hlc Hbound. unfold get_daily_summary.
  destruct (usage_history m) as [|u us] eqn:E; cbn zeta.
  - cbn [total_usage total_cost average_rate]. split; [lra | split; split; lra].
  - rewrite <- E in *. clear E u us.
    rewrite !(py_slice_from_whole 24) by lia.
    cbn [total_usage total_cost average_rate].
    destruct (Qsum_cost_bound _ _ Hbound) as (Hu & Hc0 & Hc1).
    rewrite <- py_sum_Qsum in Hu, Hc0. rewrite <- !py_sum_Qsum in Hc1.
    set (du := py_sum (map usage (usage_history m))) in *.
    set (dc := py_sum (map cost (cost_history m))) in *.
    split; [exact Hu|]. split; [split; assumption|].
    destruct (Qlt_bool 0 du) eqn:Ed; [|split; lra].
    apply Qlt_bool_iff in Ed. split.
    + apply Qle_shift_div_l; [exact Ed | lra].
    + apply Qle_shift_div_r; [exact Ed | exact Hc1].
Qed.

Lemma main_optimizer_ok :
  tariff_schedule main_optimizer = TariffSchedule_init /\
  NoDup (map fst (appliance_schedule main_optimizer)) /\
  (forall name d, In (name, d) (appliance_schedule main_optimizer) ->
                  (0 <= power_usage d)%Q).
Proof.
  split; [reflexivity|]. split.
  - apply (add_appliance_keeps_names_distinct _ "Refrigerator").
    apply (add_appliance_keeps_names_distinct _ "Pool Pump").
    apply (add_appliance_keeps_names_distinct _ "Dishwasher").
    apply (add_appliance_keeps_names_distinct _ "Washing Machine").
    constructor.
  - intros name d Hin. cbn in Hin.
    repeat (destruct Hin as [[= <- <-] | Hin]; [cbn; lra|]). destruct Hin.
Qed.

Lemma main_run (w : World) :
  exists st,
    main w = Ok (get_daily_summary (sim_monitor st), sim_world st) /\
    replay_inv
      (mk_World (wall_clock w) (now_calls w + 26) (uniform_stream w)
         (uniform_calls w + 13)) 10 24 st.
Proof.
  destruct main_optimizer_ok as (Hts & Hnd & Hpower).
  destruct (replay_ok main_optimizer w Hts Hnd Hpower)
    as (sched & self' & w1 & Hrun & Hw1 & Hreplay).
  destruct (Hreplay (fst (datetime_now w1))) as (st & Hloop & Hinv).
  exists st. split.
  - unfold main. cbv zeta. fold main_optimizer. rewrite Hrun, bind_Ok.
    destruct (datetime_now w1) as [ct w2] eqn:Enow.
    cbn [fst snd] in Hloop. rewrite Hloop, bind_Ok. reflexivity.
  - rewrite Hw1 in Hinv. unfold datetime_now in Hinv.
    cbn [snd now_calls wall_clock uniform_stream uniform_calls] in Hinv.
    replace (now_calls w + 26)%nat with (S (now_calls w + 25)) by lia.
    exact Hinv.
Qed.

(** X26: [main] never raises.  For every clock and every random source it
    returns a summary, having read the clock 50 times (25 in the scheduler,
    25 in the replay) and drawn 26 random multipliers (13 daylight hours,
    twice); every scheduled name is found in the registry and every time
    slot is valid. *)
Theorem main_returns (w : World) :
  exists summary,
    main w
    = Ok (summary,
          mk_World (wall_clock w) (now_calls w + 50) (uniform_stream w)
            (uniform_calls w + 26)).
Proof.
  destruct (main_run w) as (st & Hmain & Hw & _).
  exists (get_daily_summary (sim_monitor st)). rewrite Hmain, Hw.
  cbn [wall_clock now_calls uniform_stream uniform_calls].
  change (draws_before (Z.of_nat 24)) with 13%nat.
  do 2 f_equal. f_equal; lia.
Qed.

(** X27: with non-negative random multipliers the summary [main] prints
    has non-negative totals, a total cost of at most 0.40 per unit of
    total usage, and an average rate between 0 and the peak rate 0.40. *)
Theorem main_average_rate_bounded (w : World) :
  (forall k, (0 <= uniform_stream w k)%Q) ->
  exists summary w',
    main w = Ok (summary, w') /\
    (0 <= total_usage summary)%Q /\
    (0 <= total_cost summary <= (40 # 100) * total_usage summary)%Q /\
    (0 <= average_rate summary <= 40 # 100)%Q.
Proof.
  intros Hu.
  destruct (main_run w) as (st & Hmain & _ & _ & Hlu & Hlc & Hbound).
  exists (get_daily_summary (sim_monitor st)), (sim_world st).
  split; [exact Hmain|].
  apply summary_rate_bound; [lia | lia |].
  apply Hbound; [exact Hu | lra].
Qed.

Lemma main_average_rate_bounded_witness :
  exists summary w',
    main (frozen_world 12 0 (9 # 10)) = Ok (summary, w') /\
    (0 <= average_rate summary <= 40 # 100)%Q.
Proof.
  destruct (main_average_rate_bounded (frozen_world 12 0 (9 # 10)))
    as (summary & w' & Hrun & _ & _ & Havg).
  - intros k. cbn. lra.
  - exists summary, w'. split; [exact Hrun | exact Havg].
Defined.

(** ** Replaying the schedule: [run_demo] *)

Lemma for_each_counted {A S : Type} (body : S -> A -> result S)
    (P : nat -> S -> Prop) (xs : list A) (s s' : S) :
  (forall i s x s', P i s -> body s x = Ok s' -> P (Datatypes.S i) s') ->
  P 0%nat s ->
  for_each body xs s = Ok s' ->
  P (length xs) s'.
Proof.
  intros Hstep. revert P Hstep s.
  induction xs as [|x xs IH]; intros P Hstep s H0 Hrun.
  - cbn in Hrun. injection Hrun as <-. exact H0.
  - cbn [for_each] in Hrun. apply bind_Ok_inv in Hrun as (s1 & Hbody & Hrun).
    cbn [length].
    apply (IH (fun i => P (Datatypes.S i))) with (s := s1).
    + intros i s2 y s3. apply Hstep.
    + exact (Hstep _ _ _ _ H0 Hbody).
    + exact Hrun.
Qed.

(** The columns of a row are consistent whatever the rounding of the two
    subtractions; the exact subtractions of [demo_hour] are the case of the
    identity. *)
Lemma consistent_of_hour (rnd : Q -> Q) (total generation r c : Q) (hour : Z)
    (slot : datetime) (names : list string) :
  Rounding rnd ->
  row_consistent (mk_HourlyData hour slot generation total
                    (py_max 0 (rnd (total - generation)%Q)) (py_min total generation)
                    (py_max 0 (rnd (generation - total)%Q)) r c names).
Proof.
  intros R. unfold row_consistent, py_max, py_min.
  cbn [hd_grid_usage hd_solar_used hd_solar_excess hd_total_usage
       hd_solar_generation].
  assert (Hg : (total <= generation -> rnd (total - generation) <= 0)%Q)
    by (intros H; apply rnd_nonpos; [exact R | lra]).
  assert (He : (generation <= total -> rnd (generation - total) <= 0)%Q)
    by (intros H; apply rnd_nonpos; [exact R | lra]).
  set (dg := rnd (total - generation)%Q) in *.
  set (de := rnd (generation - total)%Q) in *.
  assert (Hcase : (total <= generation \/ generation <= total)%Q).
  { destruct (Qlt_le_dec generation total) as [H | H]; [right; lra | left; exact H]. }
  destruct (Qlt_bool 0 dg) eqn:E1;
    destruct (Qlt_bool generation total) eqn:E2;
    destruct (Qlt_bool 0 de) eqn:E3;
    try apply Qlt_bool_iff in E1; try apply Qlt_bool_false_iff in E1;
    try apply Qlt_bool_iff in E2; try apply Qlt_bool_false_iff in E2;
    try apply Qlt_bool_iff in E3; try apply Qlt_bool_false_iff in E3;
    (split; [lra|]; split; [lra|];
     split; [destruct Hcase as [H | H];
             [specialize (Hg H) | specialize (He H)];
             first [left; lra | right; lra]|];
     split; [intros H; specialize (Hg H); lra|];
     split; [intros H; specialize (He H); lra|];
     split; [lra|]; split; [lra|]; first [left; lra | right; lra]).
Qed.

Lemma demo_hour_step (ts : TariffSchedule)
    (registry : list (string * ApplianceDetails))
    (schedule : gmap Z (list string)) (ct : datetime)
    (acc acc' : SimState * list HourlyData) (hour : Z) (i : nat) :
  (length (snd acc) = i /\ Forall row_consistent (snd acc)) ->
  demo_hour ts registry schedule ct acc hour = Ok acc' ->
  length (snd acc') = S i /\ Forall row_consistent (snd acc').
Proof.
  destruct acc as [st rows]. intros [Hlen Hbal] Hrun. unfold demo_hour in Hrun.
  apply bind_Ok_inv in Hrun as (slot & _ & Hrun).
  destruct (update_generation (sim_solar st) slot (sim_world st))
    as [[generation solar1] w1].
  apply bind_Ok_inv in Hrun as ([r w2] & _ & Hrun).
  apply bind_Ok_inv in Hrun as (total & _ & Hrun).
  injection Hrun as <-. cbn [snd] in *. split.
  - rewrite length_app. cbn [length]. lia.
  - apply Forall_app. split; [exact Hbal|].
    constructor; [|constructor].
    exact (consistent_of_hour (fun x => x) total generation r _ hour slot _
             exact_is_rounding).
Qed.

(** X28: the rows of the demo.  Whenever [run_demo] gets to its table, the
    table has 24 rows and in every row grid usage and solar excess are
    non-negative and never both positive, grid usage is 0 when the
    generation covers the usage, solar excess is 0 when the usage covers
    the generation, and solar used is the smaller of usage and
    generation. *)
Theorem run_demo_rows_consistent (w w' : World) (data : DemoData) :
  run_demo w = Ok (data, w') ->
  length (demo_hourly_data data) = 24%nat /\
  Forall row_consistent (demo_hourly_data data).
Proof.
  unfold run_demo. cbv zeta. intros Hrun.
  apply bind_Ok_inv in Hrun as ([[schedule optimizer1] w1] & _ & Hrun).
  destruct (datetime_now w1) as [now w2].
  apply bind_Ok_inv in Hrun as ([st rows] & Hloop & Hret).
  injection Hret as <- _. cbn [demo_hourly_data].
  apply (for_each_counted _
           (fun i acc => length (snd acc) = i /\ Forall row_consistent (snd acc)))
    in Hloop.
  - exact Hloop.
  - intros i acc x acc'. apply demo_hour_step.
  - split; [reflexivity | constructor].
Qed.

Lemma run_demo_rows_consistent_witness :
  match run_demo (frozen_world 12 30 (9 # 10)) with
  | Ok (data, _) => length (demo_hourly_data data) = 24%nat
  | Raise _ => False
  end.
Proof.
  destruct (run_demo (frozen_world 12 30 (9 # 10))) as [[data w'] | e] eqn:Hrun.
  - exact (proj1 (run_demo_rows_consistent _ _ _ Hrun)).
  - vm_compute in Hrun. discriminate Hrun.
Defined.

Lemma demo_optimizer_ok :
  tariff_schedule demo_optimizer = TariffSchedule_init /\
  NoDup (map fst (appliance_schedule demo_optimizer)) /\
  (forall name d, In (name, d) (appliance_schedule demo_optimizer) ->
                  (0 <= power_usage d)%Q).
Proof.
  split; [reflexivity|]. split.
  - unfold demo_optimizer, demo_appliances. cbn [fold_left].
    repeat apply add_appliance_keeps_names_distinct. constructor.
  - intros name d Hin. cbn in Hin.
    repeat (destruct Hin as [[= <- <-] | Hin]; [cbn; lra|]). destruct Hin.
Qed.

(** A step of the demo loop does what a step of the loop of [main] does
    to the world, the solar system and the monitor, and appends one row. *)
Lemma demo_hour_of_main_hour (ts : TariffSchedule)
    (registry : list (string * ApplianceDetails))
    (schedule : gmap Z (list string)) (ct : datetime)
    (st st' : SimState) (rows : list HourlyData) (hour : Z) :
  main_hour ts registry schedule ct st hour = Ok st' ->
  exists row, demo_hour ts registry schedule ct (st, rows) hour
              = Ok (st', rows ++ [row]).
Proof.
  unfold main_hour, demo_hour. intros Hrun.
  apply bind_Ok_inv in Hrun as (slot & -> & Hrun). rewrite bind_Ok.
  destruct (update_generation (sim_solar st) slot (sim_world st))
    as [[generation solar1] w1].
  apply bind_Ok_inv in Hrun as ([r w2] & -> & Hrun). rewrite bind_Ok.
  apply bind_Ok_inv in Hrun as (total & -> & Hrun). rewrite bind_Ok.
  injection Hrun as <-. eexists. reflexivity.
Qed.

Lemma demo_loop_of_main_loop (ts : TariffSchedule)
    (registry : list (string * ApplianceDetails))
    (schedule : gmap Z (list string)) (ct : datetime) (hours : list Z)
    (st st' : SimState) (rows : list HourlyData) :
  for_each (main_hour ts registry schedule ct) hours st = Ok st' ->
  exists rows',
    for_each (demo_hour ts registry schedule ct) hours (st, rows) = Ok (st', rows').
Proof.
  revert st rows. induction hours as [|hour hours IH]; intros st rows Hrun.
  - cbn in Hrun. injection Hrun as <-. exists rows. reflexivity.
  - cbn [for_each] in Hrun. apply bind_Ok_inv in Hrun as (st1 & Hstep & Hrun).
    destruct (demo_hour_of_main_hour _ _ _ _ _ _ rows _ Hstep) as (row & Hrow).
    destruct (IH st1 (rows ++ [row]) Hrun) as (rows' & Hrows).
    exists rows'. cbn [for_each]. rewrite Hrow, bind_Ok. exact Hrows.
Qed.

(** X30: [run_demo] never raises before it prints and plots.  For every
    clock and every random source it builds its table, having read the
    clock 50 times and drawn 26 random multipliers, and its monitor holds
    one usage and one cost record per hour of the day. *)
Theorem run_demo_returns (w : World) :
  exists data,
    run_demo w
    = Ok (data,
          mk_World (wall_clock w) (now_calls w + 50) (uniform_stream w)
            (uniform_calls w + 26)) /\
    length (usage_history (demo_monitor data)) = 24%nat /\
    length (cost_history (demo_monitor data)) = 24%nat.
Proof.
  destruct demo_optimizer_ok as (Hts & Hnd & Hpower).
  destruct (replay_ok demo_optimizer w Hts Hnd Hpower)
    as (sched & self' & w1 & Hrun & Hw1 & Hreplay).
  destruct (Hreplay (dt_truncate_to_hour (fst (datetime_now w1))))
    as (st & Hloop & Hw & _ & Hlu & Hlc & _).
  destruct (demo_loop_of_main_loop _ _ _ _ _ _ _ [] Hloop) as (rows & Hrows).
  exists (mk_DemoData sched rows (sim_monitor st)).
  split; [|split; [exact Hlu | exact Hlc]].
  unfold run_demo. cbv zeta. fold demo_optimizer. rewrite Hrun, bind_Ok.
  destruct (datetime_now w1) as [now w2] eqn:Enow.
  cbn [fst snd] in Hrows, Hw. rewrite Hrows, bind_Ok, Hw.
  assert (Ew2 : w2 = snd (datetime_now w1)) by (rewrite Enow; reflexivity).
  rewrite Ew2, Hw1. unfold datetime_now.
  cbn [snd wall_clock now_calls uniform_stream uniform_calls].
  change (draws_before (Z.of_nat 24)) with 13%nat.
  unfold mret, result_ret. do 2 f_equal. f_equal; lia.
Qed.
